(** * Tesla_at_front.py: spawning a stationary vehicle in front of the ego vehicle

    A shallow embedding of [src/Tesla_at_front.py] and the properties of its
    retrying spawn-placement procedure, of [get_actor_blueprints] and of the
    caller in [main].

    The script talks to the CARLA simulator through the [carla] client
    library.  The library is not part of the repository, so what the script
    needs from it is an interface here: the arithmetic on Python floats and
    the forward vector of a rotation ([Arith]), the wildcard match of the
    blueprint library, and the simulator itself ([WorldAuthority]).  Python
    objects that the script allocates and mutates ([carla.Transform],
    [carla.Location], [carla.Vector3D]) live in an explicit heap, so that
    what [spawn_location.z += ...] writes to is visible. *)

From Stdlib Require Import ZArith QArith Qcanon String Ascii List Lia Bool.
From Stdlib Require PrimFloat Uint63.
From stdpp Require Import base list.

Open Scope Z_scope.
Open Scope string_scope.

(** ** Geometry, as [carla.Vector3D], [carla.Location], [carla.Rotation] and
    [carla.Transform] have it.  [R] is the type of the coordinates. *)

Record Vector3D (R : Type) := mkVector3D { vec_x : R; vec_y : R; vec_z : R }.
Record Location (R : Type) := mkLocation { x : R; y : R; z : R }.
Record Rotation (R : Type) := mkRotation { pitch : R; yaw : R; roll : R }.
Record Transform (R : Type) :=
  mkTransform { location : Location R; rotation : Rotation R }.

Arguments mkVector3D {R}.
Arguments vec_x {R}.
Arguments vec_y {R}.
Arguments vec_z {R}.
Arguments mkLocation {R}.
Arguments x {R}.
Arguments y {R}.
Arguments z {R}.
Arguments mkRotation {R}.
Arguments pitch {R}.
Arguments yaw {R}.
Arguments roll {R}.
Arguments mkTransform {R}.
Arguments location {R}.
Arguments rotation {R}.

(** The arithmetic the script performs on coordinates: float addition and
    multiplication, the conversion of a Python [int] to a float ([i * 0.5]
    converts [i] first), the literal [0.5], and the forward vector the
    library computes from a rotation. *)
Class Arith (R : Type) := {
  fadd : R -> R -> R;
  fmul : R -> R -> R;
  of_int : Z -> R;
  half : R;
  rotation_forward_vector : Rotation R -> Vector3D R
}.

Section Geometry.
Context {R : Type} `{Arith R}.

(** [Vector3D.__mul__]: a new vector, every component scaled. *)
Definition vector_mul (v : Vector3D R) (k : R) : Vector3D R :=
  mkVector3D (fmul (vec_x v) k) (fmul (vec_y v) k) (fmul (vec_z v) k).

(** [Location.__add__]: a new location, the components summed. *)
Definition location_add (l : Location R) (v : Vector3D R) : Location R :=
  mkLocation (fadd (x l) (vec_x v)) (fadd (y l) (vec_y v)) (fadd (z l) (vec_z v)).

(** The attribute write [l.z = v]. *)
Definition set_z (l : Location R) (v : R) : Location R :=
  mkLocation (x l) (y l) v.

(** [Transform.get_forward_vector()]. *)
Definition get_forward_vector (t : Transform R) : Vector3D R :=
  rotation_forward_vector (rotation t).
End Geometry.

(** ** Blueprints and actors *)

Inductive ActorAttributeType := AttrBool | AttrInt | AttrFloat | AttrString | AttrRGBColor.

Record ActorAttribute := mkAttribute {
  attr_id : string;
  attr_type : ActorAttributeType;
  attr_value : string;
  recommended_values : list string;
  is_modifiable : bool
}.

(** [bp_id] is the blueprint's [id]. *)
Record ActorBlueprint := mkBlueprint {
  bp_id : string;
  bp_attributes : list ActorAttribute
}.

(** [actor_id] is the actor's [id], [actor_attributes] its [attributes]
    dictionary. *)
Record Actor := mkActor {
  actor_id : Z;
  type_id : string;
  actor_attributes : list (string * string)
}.

Definition lookup_attribute (name : string) (attrs : list ActorAttribute)
  : option ActorAttribute :=
  List.find (fun a => String.eqb (attr_id a) name) attrs.

Definition has_attribute (bp : ActorBlueprint) (name : string) : bool :=
  match lookup_attribute name (bp_attributes bp) with
  | Some _ => true
  | None => false
  end.

Fixpoint replace_attribute (name value : string) (attrs : list ActorAttribute)
  : list ActorAttribute :=
  match attrs with
  | [] => []
  | a :: rest =>
      if String.eqb (attr_id a) name
      then mkAttribute (attr_id a) (attr_type a) value
             (recommended_values a) (is_modifiable a) :: rest
      else a :: replace_attribute name value rest
  end.

(** [actor.attributes.get(key, default)]. *)
Fixpoint dict_get (key : string) (default : string) (d : list (string * string))
  : string :=
  match d with
  | [] => default
  | (k, v) :: rest => if String.eqb k key then v else dict_get key default rest
  end.

(** ** The simulator

    [try_spawn_actor] is the non-fatal placement request: the authority
    answers with a handle or with [None] and moves to its next state.
    [get_actors] lists the actors of the world, [actor_transform] is what
    [actor.get_transform()] reads and [get_blueprint_library] is the
    catalogue of blueprints. *)
Class WorldAuthority (R W : Type) := {
  try_spawn_actor : ActorBlueprint -> Transform R -> W -> option Actor * W;
  get_actors : W -> list Actor;
  actor_transform : Actor -> W -> Transform R;
  get_blueprint_library : W -> list ActorBlueprint
}.

(** What the client library decides on its own: whether a blueprint or an
    actor matches a wildcard pattern ([filter]), and whether a string is an
    acceptable value for an attribute of a given type ([set_attribute]). *)
Class ClientLibrary := {
  blueprint_matches : string -> ActorBlueprint -> bool;
  actor_matches : string -> Actor -> bool;
  valid_attribute_value : ActorAttributeType -> string -> bool
}.

(** ** Python strings: [str.lower], [int(str)], [in]

    A Python [str] is a sequence of Unicode code points.  It is held here as
    its UTF-8 encoding, one [ascii] for each byte, so that a string literal
    of the script is the same literal here, and [in], [==] and
    [str.endswith] with an ASCII argument are what they are on the bytes. *)

Definition ascii_lower (c : ascii) : ascii :=
  let n := nat_of_ascii c in
  if ((65 <=? n) && (n <=? 90))%nat then ascii_of_nat (n + 32) else c.

(** [str.lower] as far as the script needs it, for the comparison with
    ["all"]: the ASCII capitals become small letters.  No character outside
    ASCII lowers to [a] or to [l] (the Kelvin sign lowers to [k], the dotted
    capital I to [i] and a combining dot, and nothing else to ASCII), so a
    string lowers to ["all"] exactly when this function takes it there. *)
Fixpoint lower (s : string) : string :=
  match s with
  | EmptyString => EmptyString
  | String c rest => String (ascii_lower c) (lower rest)
  end.

(** The byte [10xxxxxx] that continues a UTF-8 sequence: its six bits. *)
Definition continuation (c : ascii) : option Z :=
  let n := Z.of_nat (nat_of_ascii c) in
  if ((128 <=? n) && (n <? 192))%Z then Some (n - 128) else None.

(** The code points a UTF-8 string encodes, [None] when the bytes encode no
    sequence of code points. *)
Fixpoint code_points (s : string) : option (list Z) :=
  match s with
  | EmptyString => Some []
  | String c rest =>
      let n := Z.of_nat (nat_of_ascii c) in
      if (n <? 128)%Z then option_map (cons n) (code_points rest)
      else if ((194 <=? n) && (n <? 224))%Z then
        match rest with
        | String c1 rest1 =>
            match continuation c1 with
            | Some k1 =>
                option_map (cons ((n - 192) * 64 + k1)) (code_points rest1)
            | None => None
            end
        | EmptyString => None
        end
      else if ((224 <=? n) && (n <? 240))%Z then
        match rest with
        | String c1 (String c2 rest2) =>
            match continuation c1, continuation c2 with
            | Some k1, Some k2 =>
                let cp := ((n - 224) * 64 + k1) * 64 + k2 in
                if (2048 <=? cp)%Z then option_map (cons cp) (code_points rest2)
                else None
            | _, _ => None
            end
        | _ => None
        end
      else if ((240 <=? n) && (n <? 245))%Z then
        match rest with
        | String c1 (String c2 (String c3 rest3)) =>
            match continuation c1, continuation c2, continuation c3 with
            | Some k1, Some k2, Some k3 =>
                let cp := (((n - 240) * 64 + k1) * 64 + k2) * 64 + k3 in
                if ((65536 <=? cp) && (cp <=? 1114111))%Z
                then option_map (cons cp) (code_points rest3)
                else None
            | _, _, _ => None
            end
        | _ => None
        end
      else None
  end.

(** The decimal digits of Unicode 14.0, the version of CPython 3.11: the
    code point of the digit zero of every script; its other nine digits
    follow it in order. *)
Definition decimal_zeros : list Z :=
  [48; 1632; 1776; 1984; 2406; 2534; 2662; 2790; 2918; 3046; 3174;
   3302; 3430; 3558; 3664; 3792; 3872; 4160; 4240; 6112; 6160; 6470;
   6608; 6784; 6800; 6992; 7088; 7232; 7248; 42528; 43216; 43264;
   43472; 43504; 43600; 44016; 65296; 66720; 68912; 69734; 69872;
   69942; 70096; 70384; 70736; 70864; 71248; 71360; 71472; 71904;
   72016; 72784; 73040; 73120; 92768; 92864; 93008; 120782; 120792;
   120802; 120812; 120822; 123200; 123632; 125264; 130032].

Definition decimal_value (cp : Z) : option Z :=
  option_map (fun zero => cp - zero)
    (List.find (fun zero => ((zero <=? cp) && (cp <=? zero + 9))%Z) decimal_zeros).

(** The white space of Unicode 14.0 outside ASCII. *)
Definition unicode_spaces : list Z :=
  [133; 160; 5760; 8192; 8193; 8194; 8195; 8196; 8197; 8198; 8199;
   8200; 8201; 8202; 8232; 8233; 8239; 8287; 12288].

(** What [int] makes of a character before it reads the literal: a character
    below 127 stays, white space becomes a blank, a decimal digit its ASCII
    digit, and any other character cannot be part of a literal. *)
Definition decimal_and_space_to_ascii (cp : Z) : ascii :=
  if (cp <? 127)%Z then ascii_of_nat (Z.to_nat cp)
  else if existsb (Z.eqb cp) unicode_spaces then " "%char
  else
    match decimal_value cp with
    | Some d => ascii_of_nat (Z.to_nat (48 + d))
    | None => "?"%char
    end.

(** The white space [int] skips around the literal once the characters are
    ASCII: tab, line feed, vertical tab, form feed, carriage return, blank. *)
Definition is_space (c : ascii) : bool :=
  let n := nat_of_ascii c in
  (((9 <=? n) && (n <=? 13)) || (n =? 32))%nat.

Definition digit_value (c : ascii) : option Z :=
  let n := nat_of_ascii c in
  if ((48 <=? n) && (n <=? 57))%nat then Some (Z.of_nat (n - 48)) else None.

Definition is_digit (c : ascii) : bool :=
  match digit_value c with Some _ => true | None => false end.

Fixpoint lstrip (s : string) : string :=
  match s with
  | String c rest => if is_space c then lstrip rest else s
  | EmptyString => EmptyString
  end.

Fixpoint string_rev (s : string) : string :=
  match s with
  | EmptyString => EmptyString
  | String c rest => string_rev rest ++ String c EmptyString
  end.

Definition strip (s : string) : string :=
  string_rev (lstrip (string_rev (lstrip s))).

(** The digits of an integer literal: decimal digits, single underscores
    allowed between two digits. *)
Fixpoint py_digits (acc : Z) (s : string) : option Z :=
  match s with
  | EmptyString => Some acc
  | String c rest =>
      if Ascii.eqb c "_"%char then
        match rest with
        | String d _ => if is_digit d then py_digits acc rest else None
        | EmptyString => None
        end
      else
        match digit_value c with
        | Some d => py_digits (10 * acc + d) rest
        | None => None
        end
  end.

(** [sys.int_info.default_max_str_digits]: [int] refuses a literal of more
    digits, leading zeros counted. *)
Definition max_str_digits : Z := 4300.

Fixpoint count_digits (s : string) : Z :=
  match s with
  | EmptyString => 0
  | String c rest => (if is_digit c then 1 else 0) + count_digits rest
  end.

Definition py_unsigned (s : string) : option Z :=
  match s with
  | String c _ =>
      if is_digit c && (count_digits s <=? max_str_digits)%Z
      then py_digits 0 s
      else None
  | EmptyString => None
  end.

(** [int(s)] for a string: every character is brought to ASCII, white space
    around the literal is dropped, a sign may precede the digits; [None]
    stands for [ValueError]. *)
Definition py_int (s : string) : option Z :=
  match code_points s with
  | Some cps =>
      match strip (string_of_list_ascii (List.map decimal_and_space_to_ascii cps)) with
      | String "+"%char rest => py_unsigned rest
      | String "-"%char rest => option_map Z.opp (py_unsigned rest)
      | t => py_unsigned t
      end
  | None => None
  end.

Fixpoint is_prefix (p s : string) : bool :=
  match p, s with
  | EmptyString, _ => true
  | String a p', String b s' => Ascii.eqb a b && is_prefix p' s'
  | String _ _, EmptyString => false
  end.

(** [sub in s]. *)
Fixpoint contains (sub s : string) : bool :=
  is_prefix sub s ||
  match s with
  | EmptyString => false
  | String _ rest => contains sub rest
  end.

(** C [atoi], which the library uses to read an integer attribute: leading
    white space, an optional sign, then the longest run of digits. *)
Fixpoint atoi_digits (acc : Z) (s : string) : Z :=
  match s with
  | String c rest =>
      match digit_value c with
      | Some d => atoi_digits (10 * acc + d) rest
      | None => acc
      end
  | EmptyString => acc
  end.

Fixpoint c_lstrip (s : string) : string :=
  match s with
  | String c rest =>
      let n := nat_of_ascii c in
      if (((9 <=? n) && (n <=? 13)) || (n =? 32))%nat then c_lstrip rest else s
  | EmptyString => EmptyString
  end.

Definition atoi (s : string) : Z :=
  match c_lstrip s with
  | String "+"%char rest => atoi_digits 0 rest
  | String "-"%char rest => - atoi_digits 0 rest
  | t => atoi_digits 0 t
  end.

(** ** The interpreter state

    [heap] holds the Python objects the script creates; an address is an
    index into it.  [requests] is the log of placement requests with the
    authority's answers, [stdout] what was printed, [rng] the future draws
    of [numpy.random]. *)

Inductive pyobj (R : Type) :=
  | PTransform (t : Transform R)
  | PLocation (l : Location R)
  | PVector (v : Vector3D R).
Arguments PTransform {R}.
Arguments PLocation {R}.
Arguments PVector {R}.

Inductive message :=
  | MsgSpawned (vehicle_id : Z) (attempts : Z)
  | MsgFailed
  | MsgEgoNotFound
  | MsgSpawnedInFront (vehicle_id : Z)
  | MsgGenerationNotValid.

Inductive exn := IndexError | ValueError | AttributeError | TypeError | InvalidAttributeValue.

Inductive outcome (A : Type) :=
  | Ok (a : A)
  | Raise (e : exn).
Arguments Ok {A}.
Arguments Raise {A}.

Record request (R : Type) := mkRequest {
  req_blueprint : ActorBlueprint;
  req_transform : Transform R;
  req_response : option Actor
}.
Arguments mkRequest {R}.
Arguments req_blueprint {R}.
Arguments req_transform {R}.
Arguments req_response {R}.

Record state (R W : Type) := mkState {
  world : W;
  heap : list (pyobj R);
  rng : list nat;
  requests : list (request R);
  stdout : list message
}.
Arguments mkState {R W}.
Arguments world {R W}.
Arguments heap {R W}.
Arguments rng {R W}.
Arguments requests {R W}.
Arguments stdout {R W}.

Section Interpreter.
Context {R W : Type} `{Arith R} `{WorldAuthority R W} `{ClientLibrary}.

(** A statement of the script: it runs from a state, and either yields a
    value or raises, in a new state. *)
Definition M (A : Type) : Type := state R W -> outcome A * state R W.

Definition ret {A : Type} (a : A) : M A := fun s => (Ok a, s).

Definition raise {A : Type} (e : exn) : M A := fun s => (Raise e, s).

Definition bind {A B : Type} (m : M A) (k : A -> M B) : M B :=
  fun s =>
    match m s with
    | (Ok a, s') => k a s'
    | (Raise e, s') => (Raise e, s')
    end.

Notation "'do' v <- m ; k" := (bind m (fun v => k))
  (at level 10, v name, m at level 100, k at level 200).

(** A new object: it gets the next free address. *)
Definition alloc (o : pyobj R) : M nat :=
  fun s =>
    (Ok (length (heap s)),
     mkState (world s) (heap s ++ [o]) (rng s) (requests s) (stdout s)).

Definition load (a : nat) : M (pyobj R) :=
  fun s =>
    match heap s !! a with
    | Some o => (Ok o, s)
    | None => (Raise TypeError, s)
    end.

(** An attribute write on the object at [a]. *)
Definition store (a : nat) (o : pyobj R) : M unit :=
  fun s =>
    match heap s !! a with
    | Some _ =>
        (Ok tt, mkState (world s) (<[a:=o]> (heap s)) (rng s) (requests s) (stdout s))
    | None => (Raise TypeError, s)
    end.

Definition load_transform (a : nat) : M (Transform R) :=
  do o <- load a ;
  match o with PTransform t => ret t | _ => raise TypeError end.

Definition load_location (a : nat) : M (Location R) :=
  do o <- load a ;
  match o with PLocation l => ret l | _ => raise TypeError end.

Definition load_vector (a : nat) : M (Vector3D R) :=
  do o <- load a ;
  match o with PVector v => ret v | _ => raise TypeError end.

Definition print (m : message) : M unit :=
  fun s =>
    (Ok tt, mkState (world s) (heap s) (rng s) (requests s) (stdout s ++ [m])).

(** [numpy.random.choice(a)]: [ValueError] on an empty sequence, else the
    element the next draw selects. *)
Definition random_choice (a : list string) : M string :=
  fun s =>
    match a with
    | [] => (Raise ValueError, s)
    | v :: _ =>
        let draw := match rng s with d :: _ => d | [] => 0%nat end in
        (Ok (nth (draw mod length a) a v),
         mkState (world s) (heap s) (tl (rng s)) (requests s) (stdout s))
    end.

(** [actor.get_transform()]: a new [carla.Transform] object holding the
    actor's pose in the world. *)
Definition get_transform (actor : Actor) : M nat :=
  fun s => alloc (PTransform (actor_transform actor (world s))) s.

(** [world.try_spawn_actor(blueprint, transform)], logged. *)
Definition world_try_spawn_actor (bp : ActorBlueprint) (tf : Transform R)
  : M (option Actor) :=
  fun s =>
    let (r, w') := try_spawn_actor bp tf (world s) in
    (Ok r,
     mkState w' (heap s) (rng s) (requests s ++ [mkRequest bp tf r]) (stdout s)).

(** [blueprint_library.find(id)]: a copy of the blueprint, [IndexError] if
    there is none. *)
Definition find (blueprint_library : list ActorBlueprint) (id : string)
  : M ActorBlueprint :=
  match List.find (fun bp => String.eqb (bp_id bp) id) blueprint_library with
  | Some bp => ret bp
  | None => raise IndexError
  end.

(** [blueprint.get_attribute(id)]: [IndexError] if the blueprint has no such
    attribute. *)
Definition get_attribute (bp : ActorBlueprint) (id : string)
  : M ActorAttribute :=
  match lookup_attribute id (bp_attributes bp) with
  | Some a => ret a
  | None => raise IndexError
  end.

(** [blueprint.set_attribute(id, value)]: the attribute has to exist, to be
    modifiable and to accept the value. *)
Definition set_attribute (bp : ActorBlueprint) (id value : string)
  : M ActorBlueprint :=
  match lookup_attribute id (bp_attributes bp) with
  | None => raise IndexError
  | Some a =>
      if is_modifiable a && valid_attribute_value (attr_type a) value
      then ret (mkBlueprint (bp_id bp) (replace_attribute id value (bp_attributes bp)))
      else raise InvalidAttributeValue
  end.

(** [int(attribute)]: only an attribute of integer type converts. *)
Definition int_of_attribute (a : ActorAttribute) : M Z :=
  match attr_type a with
  | AttrInt => ret (atoi (attr_value a))
  | _ => raise TypeError
  end.

Definition int_of_string (s : string) : M Z :=
  match py_int s with
  | Some n => ret n
  | None => raise ValueError
  end.

(** [range(n)]. *)
Definition range (n : Z) : list Z := List.map Z.of_nat (seq 0 (Z.to_nat n)).

(** A [for] loop whose body may [return]: [Some v] from the body leaves the
    loop with [v], [None] goes on with the next index; [None] from the loop
    means it ran to its end. *)
Fixpoint for_each {A : Type} (indices : list Z) (body : Z -> M (option A))
  : M (option A) :=
  match indices with
  | [] => ret None
  | i :: rest =>
      do r <- body i ;
      match r with
      | Some v => ret (Some v)
      | None => for_each rest body
      end
  end.

(** [[x for x in xs if keep(x)]], where [keep] may raise. *)
Fixpoint list_comprehension {A : Type} (keep : A -> M bool) (xs : list A)
  : M (list A) :=
  match xs with
  | [] => ret []
  | x :: rest =>
      do k <- keep x ;
      do kept <- list_comprehension keep rest ;
      ret (if k then x :: kept else kept)
  end.

(** [try: m  except: handler] with a bare [except]. *)
Definition try_except {A : Type} (m handler : M A) : M A :=
  fun s =>
    match m s with
    | (Ok a, s') => (Ok a, s')
    | (Raise _, s') => handler s'
    end.

Definition get_world : M W := fun s => (Ok (world s), s).

(** ** The script *)

(** Lines 23-42. *)
Definition get_actor_blueprints (filter generation : string)
  : M (list ActorBlueprint) :=
  do w <- get_world ;
  let bps := List.filter (blueprint_matches filter) (get_blueprint_library w) in
  if String.eqb (lower generation) "all" then ret bps
  else if Nat.eqb (length bps) 1 then ret bps
  else
    try_except
      (do int_generation <- int_of_string generation ;
       if Z.eqb int_generation 1 || Z.eqb int_generation 2 then
         list_comprehension
           (fun x =>
              do a <- get_attribute x "generation" ;
              do g <- int_of_attribute a ;
              ret (Z.eqb g int_generation))
           bps
       else
         do _ <- print MsgGenerationNotValid ;
         ret [])
      (do _ <- print MsgGenerationNotValid ;
       ret []).

(** Lines 63-72, the body of the retry loop.  [ego_transform] and
    [forward_vector] are the addresses of the objects of lines 50 and 51;
    [spawn_location] is a new object, and it is the one line 64 writes to. *)
Definition attempt (vehicle_blueprint : ActorBlueprint)
    (ego_transform forward_vector : nat) (distance : R) (i : Z)
  : M (option Actor) :=
  do et <- load_transform ego_transform ;
  do fv <- load_vector forward_vector ;
  do spawn_location <- alloc (PLocation (location_add (location et) (vector_mul fv distance))) ;
  do l <- load_location spawn_location ;
  do _ <- store spawn_location (PLocation (set_z l (fadd (z l) (fmul (of_int i) half)))) ;
  do l' <- load_location spawn_location ;
  do et' <- load_transform ego_transform ;
  do spawn_transform <- alloc (PTransform (mkTransform l' (rotation et'))) ;
  do tf <- load_transform spawn_transform ;
  do vehicle <- world_try_spawn_actor vehicle_blueprint tf ;
  match vehicle with
  | Some v =>
      do _ <- print (MsgSpawned (actor_id v) (i + 1)) ;
      ret (Some v)
  | None => ret None
  end.

(** Lines 54-60: the Tesla Model 3 blueprint, with a colour drawn from the
    recommended ones and the role name [stationary]. *)
Definition configure_blueprint (blueprint_library : list ActorBlueprint)
  : M ActorBlueprint :=
  do vehicle_blueprint <- find blueprint_library "vehicle.tesla.model3" ;
  do vehicle_blueprint <-
    (if has_attribute vehicle_blueprint "color" then
       do a <- get_attribute vehicle_blueprint "color" ;
       do color <- random_choice (recommended_values a) ;
       set_attribute vehicle_blueprint "color" color
     else ret vehicle_blueprint) ;
  set_attribute vehicle_blueprint "role_name" "stationary".

(** Lines 45-75.  The [world] argument is the world of the state. *)
Definition spawn_vehicle_in_front_of_ego_vehicle
    (blueprint_library : list ActorBlueprint) (ego_vehicle : Actor)
    (distance : R) (retries : Z)
  : M (option Actor) :=
  do ego_transform <- get_transform ego_vehicle ;
  do et <- load_transform ego_transform ;
  do forward_vector <- alloc (PVector (get_forward_vector et)) ;
  do vehicle_blueprint <- configure_blueprint blueprint_library ;
  do r <- for_each (range retries)
            (attempt vehicle_blueprint ego_transform forward_vector distance) ;
  match r with
  | Some vehicle => ret (Some vehicle)
  | None =>
      do _ <- print MsgFailed ;
      ret None
  end.

(** The defaults of the signature: [distance=75, retries=5]. *)
Definition default_distance : R := of_int 75.
Definition default_retries : Z := 5.

(** [obj.id] on what [spawn_vehicle_in_front_of_ego_vehicle] returned:
    [None] has no attribute [id]. *)
Definition getattr_id (obj : option Actor) : M Z :=
  match obj with
  | Some v => ret (actor_id v)
  | None => raise AttributeError
  end.

(** Lines 161-174 of [main]: find the ego vehicle, spawn the vehicle in
    front of it and record its id.  [None] is the [return] of line 169;
    [Some vehicles_list] goes on to the idle loop of line 176. *)
Definition main_locate_and_spawn : M (option (list Z)) :=
  do w <- get_world ;
  let ego_vehicle :=
    List.find
      (fun vehicle =>
         contains "ego_vehicle" (dict_get "role_name" "" (actor_attributes vehicle)))
      (List.filter (actor_matches "vehicle.*") (get_actors w)) in
  match ego_vehicle with
  | None =>
      do _ <- print MsgEgoNotFound ;
      ret None
  | Some ego_vehicle =>
      do w' <- get_world ;
      do new_vehicle <-
        spawn_vehicle_in_front_of_ego_vehicle (get_blueprint_library w')
          ego_vehicle default_distance default_retries ;
      do id <- getattr_id new_vehicle ;
      let vehicles_list := ([] ++ [id])%list in
      do id' <- getattr_id new_vehicle ;
      do _ <- print (MsgSpawnedInFront id') ;
      ret (Some vehicles_list)
  end.

End Interpreter.

(** ** What the claims are stated with *)

Section Specification.
Context {R W : Type} `{Arith R} `{WorldAuthority R W} `{ClientLibrary}.
Local Open Scope list_scope.

(** The candidate spawn pose of attempt [i], in the words of the
    specification: the reference position plus the forward vector of the
    reference orientation times the distance, with [i * 0.5] added to the
    vertical coordinate; the orientation is the reference orientation. *)
Definition candidate_base (reference : Transform R) (distance : R) : Location R :=
  location_add (location reference)
    (vector_mul (rotation_forward_vector (rotation reference)) distance).

Definition candidate (reference : Transform R) (distance : R) (i : Z) : Transform R :=
  let base := candidate_base reference distance in
  mkTransform
    (mkLocation (x base) (y base) (fadd (z base) (fmul (of_int i) half)))
    (rotation reference).

(** The placement requests of a run of the loop over [indices] from the
    world [w], with the answers of the authority: the loop stops at the
    first accepted one. *)
Fixpoint placements (bp : ActorBlueprint) (reference : Transform R) (distance : R)
    (indices : list Z) (w : W) : list (request R) :=
  match indices with
  | [] => []
  | i :: rest =>
      let tf := candidate reference distance i in
      let r := fst (try_spawn_actor bp tf w) in
      mkRequest bp tf r ::
        match r with
        | Some _ => []
        | None => placements bp reference distance rest (snd (try_spawn_actor bp tf w))
        end
  end.

(** The world after the authority has handled the given requests in order. *)
Fixpoint submit (reqs : list (request R)) (w : W) : W :=
  match reqs with
  | [] => w
  | rq :: rest =>
      submit rest (snd (try_spawn_actor (req_blueprint rq) (req_transform rq) w))
  end.

(** The handle a sequence of requests ends with: that of its last request. *)
Definition accepted (reqs : list (request R)) : option Actor :=
  match last reqs with
  | Some rq => req_response rq
  | None => None
  end.

(** The objects an attempt leaves on the heap: its [spawn_location] and its
    [spawn_transform]. *)
Definition attempt_objects (rq : request R) : list (pyobj R) :=
  [PLocation (location (req_transform rq)); PTransform (req_transform rq)].

(** The answer of the authority to attempt [j] when every earlier attempt
    was submitted before it. *)
Definition response_at (bp : ActorBlueprint) (reference : Transform R) (distance : R)
    (w : W) (j : Z) : option Actor :=
  fst (try_spawn_actor bp (candidate reference distance j)
         (submit (List.map (fun i => mkRequest bp (candidate reference distance i) None)
                    (range j)) w)).

(** A computation that only uses the random generator: it changes nothing
    else of the state and depends on nothing else.  [configure_blueprint]
    is one. *)
Definition with_rng (s : state R W) (g : list nat) : state R W :=
  mkState (world s) (heap s) g (requests s) (stdout s).

Definition generator_only {A : Type} (m : M A) : Prop :=
  forall s : state R W,
    snd (m s) = with_rng s (rng (snd (m s))) /\
    forall s' : state R W,
      rng s' = rng s ->
      fst (m s') = fst (m s) /\ rng (snd (m s')) = rng (snd (m s)).

(** The two objects of lines 50 and 51. *)
Definition reference_objects (reference : Transform R) : list (pyobj R) :=
  [PTransform reference; PVector (rotation_forward_vector (rotation reference))].

Definition refused (rq : request R) : Prop := req_response rq = None.

(** The request the authority would refuse for index [i]. *)
Definition refusal (bp : ActorBlueprint) (reference : Transform R) (distance : R)
    (i : Z) : request R :=
  mkRequest bp (candidate reference distance i) None.

Definition is_accepted (rq : request R) : bool :=
  match req_response rq with Some _ => true | None => false end.

(** The requests a call has added to the log. *)
Definition new_requests (s s' : state R W) : list (request R) :=
  drop (length (requests s)) (requests s').

(** What the script expects of the authority (section 6 of the
    specification): a refused placement changes nothing in the world, an
    accepted one adds the new actor to it and nothing else. *)
Class PlacementContract : Prop := {
  refusal_changes_nothing :
    forall bp (tf : Transform R) (w : W),
      fst (try_spawn_actor bp tf w) = None -> snd (try_spawn_actor bp tf w) = w;
  acceptance_creates_one :
    forall bp (tf : Transform R) (w : W) a,
      fst (try_spawn_actor bp tf w) = Some a ->
      get_actors (snd (try_spawn_actor bp tf w)) ≡ₚ a :: get_actors w
}.

(** The blueprint has a [generation] attribute of integer type. *)
Definition has_int_generation (bp : ActorBlueprint) : bool :=
  match lookup_attribute "generation" (bp_attributes bp) with
  | Some a => match attr_type a with AttrInt => true | _ => false end
  | None => false
  end.

(** The blueprint has a [generation] attribute and its integer value is [g]. *)
Definition has_generation (g : Z) (bp : ActorBlueprint) : bool :=
  match lookup_attribute "generation" (bp_attributes bp) with
  | Some a =>
      match attr_type a with
      | AttrInt => Z.eqb (atoi (attr_value a)) g
      | _ => false
      end
  | None => false
  end.

(** What [get_actor_blueprints] returns for the blueprints [bps] that match
    the filter: all of them for the generation [all] or when there is one
    only; for generation 1 or 2 those of that generation, provided each of
    them has an integer [generation] attribute; the empty list otherwise. *)
Definition blueprints_of_generation (bps : list ActorBlueprint) (generation : string)
  : list ActorBlueprint :=
  if String.eqb (lower generation) "all" || Nat.eqb (length bps) 1 then bps
  else
    match py_int generation with
    | Some g =>
        if (Z.eqb g 1 || Z.eqb g 2) && forallb has_int_generation bps
        then List.filter (has_generation g) bps
        else []
    | None => []
    end.

(** The test of the comprehension of line 35. *)
Definition generation_test (g : Z) (x : ActorBlueprint) : M (R:=R) (W:=W) bool :=
  bind (get_attribute x "generation")
    (fun a => bind (int_of_attribute a) (fun g' => ret (Z.eqb g' g))).

End Specification.

(** ** More of what the script does *)

Section Observations.
Context {R W : Type} `{Arith R} `{WorldAuthority R W} `{ClientLibrary}.
Local Open Scope list_scope.

(** The value of the attribute [name] of a blueprint, if it has one. *)
Definition attribute_value (name : string) (bp : ActorBlueprint) : option string :=
  option_map attr_value (lookup_attribute name (bp_attributes bp)).

(** What the retry loop prints on a run over [indices] from the world [w]:
    the line of line 71 for the first accepted attempt, nothing when every
    attempt is refused. *)
Fixpoint attempt_messages (bp : ActorBlueprint) (reference : Transform R) (distance : R)
    (indices : list Z) (w : W) : list message :=
  match indices with
  | [] => []
  | i :: rest =>
      match fst (try_spawn_actor bp (candidate reference distance i) w) with
      | Some v => [MsgSpawned (actor_id v) (i + 1)]
      | None =>
          attempt_messages bp reference distance rest
            (snd (try_spawn_actor bp (candidate reference distance i) w))
      end
  end.

(** The answer of the authority for the first of the candidates [0 .. n-1]
    that it accepts in the world [w], [None] when it accepts none. *)
Definition first_acceptable (bp : ActorBlueprint) (reference : Transform R)
    (distance : R) (w : W) (n : Z) : option Actor :=
  head (omap (fun i => fst (try_spawn_actor bp (candidate reference distance i) w))
          (range n)).

(** What [get_actor_blueprints] prints: the warning of lines 38 and 41 when
    it gives up on the generation, nothing otherwise. *)
Definition generation_warning (bps : list ActorBlueprint) (generation : string)
  : list message :=
  if String.eqb (lower generation) "all" || Nat.eqb (length bps) 1 then []
  else
    match py_int generation with
    | Some g =>
        if (Z.eqb g 1 || Z.eqb g 2) && forallb has_int_generation bps
        then []
        else [MsgGenerationNotValid]
    | None => [MsgGenerationNotValid]
    end.

End Observations.

(** ** The rest of [main]

    [main] also switches the world to synchronous mode, computes a list of
    blueprints, idles until it is interrupted and destroys what it spawned.
    The simulator side of this is one more interface; the settings are the
    two fields the script writes and the rest of them, whatever it is. *)

Record WorldSettings (R Other : Type) := mkSettings {
  synchronous_mode : bool;
  fixed_delta_seconds : option R;
  other_settings : Other
}.
Arguments mkSettings {R Other}.
Arguments synchronous_mode {R Other}.
Arguments fixed_delta_seconds {R Other}.
Arguments other_settings {R Other}.

(** [destroy_actors] is [client.apply_batch] of one [DestroyActor] command
    per id; [float_0_05] is the literal [0.05]. *)
Class Simulation (R W Other : Type) := {
  get_settings : W -> WorldSettings R Other;
  apply_settings : WorldSettings R Other -> W -> W;
  tick : W -> W;
  wait_for_tick : W -> W;
  destroy_actors : list Z -> W -> W;
  float_0_05 : R
}.

(** The parsed command line, with the defaults of lines 83-117. *)
Record Args := mkArgs {
  host : string;
  port : Z;
  safe : bool;
  filterv : string;
  generationv : string;
  tm_port : Z;
  asynch : bool
}.

Definition default_args : Args :=
  mkArgs "127.0.0.1" 2000 false "vehicle.*" "All" 8000 false.

(** What [main] does that can be seen from outside, in order: the lines it
    prints and its calls to the simulator. *)
Inductive main_event (R Other : Type) :=
  | Printed (m : message)
  | PrintedAsynchronousNotice
  | PrintedDestroying (n : nat)
  | PrintedDone
  | AppliedSettings (settings : WorldSettings R Other)
  | Ticked
  | WaitedForTick
  | Destroyed (ids : list Z)
  | Slept.
Arguments Printed {R Other}.
Arguments PrintedAsynchronousNotice {R Other}.
Arguments PrintedDestroying {R Other}.
Arguments PrintedDone {R Other}.
Arguments AppliedSettings {R Other}.
Arguments Ticked {R Other}.
Arguments WaitedForTick {R Other}.
Arguments Destroyed {R Other}.
Arguments Slept {R Other}.

(** [main] can also be ended by the user: [KeyboardInterrupt]. *)
Inductive main_exn :=
  | Exn (e : exn)
  | KeyboardInterrupt.

Inductive main_outcome (A : Type) :=
  | Returned (a : A)
  | Raised (e : main_exn).
Arguments Returned {A}.
Arguments Raised {A}.

(** The state of [main]: the state of the procedures it calls, its local
    variable [vehicles_list], and the events so far. *)
Record main_state (R W Other : Type) := mkMainState {
  base : state R W;
  vehicles_list : list Z;
  console : list (main_event R Other)
}.
Arguments mkMainState {R W Other}.
Arguments base {R W Other}.
Arguments vehicles_list {R W Other}.
Arguments console {R W Other}.

Section Main.
Context {R W Other : Type} `{Arith R} `{WorldAuthority R W} `{ClientLibrary}
  `{Simulation R W Other}.
Local Open Scope list_scope.

Definition MM (A : Type) : Type :=
  main_state R W Other -> main_outcome A * main_state R W Other.

Definition mret {A : Type} (a : A) : MM A := fun ms => (Returned a, ms).

Definition mraise {A : Type} (e : main_exn) : MM A := fun ms => (Raised e, ms).

Definition mbind {A B : Type} (m : MM A) (k : A -> MM B) : MM B :=
  fun ms =>
    match m ms with
    | (Returned a, ms') => k a ms'
    | (Raised e, ms') => (Raised e, ms')
    end.

Notation "'do!' v <- m ; k" := (mbind m (fun v => k))
  (at level 10, v name, m at level 100, k at level 200).
Notation "'do' v <- m ; k" := (bind m (fun v => k))
  (at level 10, v name, m at level 100, k at level 200).

(** A call of one of the procedures above from [main]: what it prints shows
    on the console, what it raises is raised in [main]. *)
Definition call {A : Type} (m : M A) : MM A :=
  fun ms =>
    let (o, s') := m (base ms) in
    (match o with
     | Ok a => Returned a
     | Raise e => Raised (Exn e)
     end,
     mkMainState s' (vehicles_list ms)
       (console ms ++
        List.map Printed (drop (length (stdout (base ms))) (stdout s')))).

Definition emit (e : main_event R Other) : MM unit :=
  fun ms => (Returned tt, mkMainState (base ms) (vehicles_list ms) (console ms ++ [e])).

(** A call to the simulator that changes the world. *)
Definition on_world (f : W -> W) : MM unit :=
  fun ms =>
    let s := base ms in
    (Returned tt,
     mkMainState (mkState (f (world s)) (heap s) (rng s) (requests s) (stdout s))
       (vehicles_list ms) (console ms)).

Definition world_get_settings : MM (WorldSettings R Other) :=
  fun ms => (Returned (get_settings (world (base ms))), ms).

Definition world_apply_settings (settings : WorldSettings R Other) : MM unit :=
  do! _ <- on_world (apply_settings settings) ;
  emit (AppliedSettings settings).

Definition world_tick : MM unit :=
  do! _ <- on_world tick ;
  emit Ticked.

Definition world_wait_for_tick : MM unit :=
  do! _ <- on_world wait_for_tick ;
  emit WaitedForTick.

Definition client_destroy (ids : list Z) : MM unit :=
  do! _ <- on_world (destroy_actors ids) ;
  emit (Destroyed ids).

Definition get_vehicles_list : MM (list Z) :=
  fun ms => (Returned (vehicles_list ms), ms).

Definition set_vehicles_list (l : list Z) : MM unit :=
  fun ms => (Returned tt, mkMainState (base ms) l (console ms)).

(** [try: body  finally: cleanup]. *)
Definition try_finally {A : Type} (body : MM A) (cleanup : MM unit) : MM A :=
  fun ms =>
    match body ms with
    | (Returned a, ms') =>
        match cleanup ms' with
        | (Returned _, ms'') => (Returned a, ms'')
        | (Raised e, ms'') => (Raised e, ms'')
        end
    | (Raised e, ms') =>
        match cleanup ms' with
        | (Returned _, ms'') => (Raised e, ms'')
        | (Raised e', ms'') => (Raised e', ms'')
        end
    end.

(** [try: body  except KeyboardInterrupt: pass]. *)
Definition except_keyboard_interrupt (body : MM unit) : MM unit :=
  fun ms =>
    match body ms with
    | (Raised KeyboardInterrupt, ms') => (Returned tt, ms')
    | r => r
    end.

(** [s.endswith(suffix)]. *)
Definition endswith (s suffix : string) : bool :=
  is_prefix (string_rev suffix) (string_rev s).

(** Lines 149-156, the blueprints kept by [--safe]: those with four wheels
    whose id does not end in one of seven model names.  The first
    comprehension reads an attribute and may raise. *)
Definition safe_blueprints (blueprints : list ActorBlueprint)
  : M (R:=R) (W:=W) (list ActorBlueprint) :=
  do blueprints <-
    list_comprehension
      (fun x =>
         do a <- get_attribute x "number_of_wheels" ;
         do n <- int_of_attribute a ;
         ret (Z.eqb n 4))
      blueprints ;
  let blueprints := List.filter (fun x => negb (endswith (bp_id x) "microlino")) blueprints in
  let blueprints := List.filter (fun x => negb (endswith (bp_id x) "carlacola")) blueprints in
  let blueprints := List.filter (fun x => negb (endswith (bp_id x) "cybertruck")) blueprints in
  let blueprints := List.filter (fun x => negb (endswith (bp_id x) "t2")) blueprints in
  let blueprints := List.filter (fun x => negb (endswith (bp_id x) "sprinter")) blueprints in
  let blueprints := List.filter (fun x => negb (endswith (bp_id x) "firetruck")) blueprints in
  let blueprints := List.filter (fun x => negb (endswith (bp_id x) "ambulance")) blueprints in
  ret blueprints.

(** Lines 131-144: the script becomes the synchronous master when it is not
    run with [--asynch] and the world is not synchronous yet. *)
Definition configure_settings (args : Args) : MM bool :=
  do! settings <- world_get_settings ;
  do! configured <-
    (if negb (asynch args) then
       if negb (synchronous_mode settings) then
         mret (true,
               mkSettings true (Some float_0_05) (other_settings settings))
       else mret (false, settings)
     else
       do! _ <- emit PrintedAsynchronousNotice ;
       mret (false, settings)) ;
  do! _ <- world_apply_settings (snd configured) ;
  mret (fst configured).

(** Lines 176-180.  The loop has no exit: it ends when the user interrupts
    the script, here after [interrupt_after] rounds. *)
Fixpoint idle_loop (args : Args) (synchronous_master : bool) (interrupt_after : nat)
  : MM unit :=
  match interrupt_after with
  | 0%nat => mraise KeyboardInterrupt
  | S n =>
      do! _ <-
        (if negb (asynch args) && synchronous_master then world_tick
         else world_wait_for_tick) ;
      idle_loop args synchronous_master n
  end.

(** Lines 183-186, the [finally] block. *)
Definition destroy_vehicles : MM unit :=
  do! l <- get_vehicles_list ;
  do! _ <- emit (PrintedDestroying (length l)) ;
  do! l <- get_vehicles_list ;
  do! _ <- client_destroy l ;
  emit Slept.

(** Lines 123-186 of [main], from the parsed arguments on. *)
Definition main (args : Args) (interrupt_after : nat) : MM unit :=
  do! _ <- set_vehicles_list [] ;
  try_finally
    (do! synchronous_master <- configure_settings args ;
     do! blueprints <- call (get_actor_blueprints (filterv args) (generationv args)) ;
     do! blueprints <-
       (if safe args then call (safe_blueprints blueprints) else mret blueprints) ;
     do! spawned <- call main_locate_and_spawn ;
     match spawned with
     | None => mret tt
     | Some l =>
         do! _ <- set_vehicles_list l ;
         idle_loop args synchronous_master interrupt_after
     end)
    destroy_vehicles.

(** Lines 189-195. *)
Definition program (args : Args) (interrupt_after : nat) : MM unit :=
  try_finally (except_keyboard_interrupt (main args interrupt_after)) (emit PrintedDone).

(** *** What the properties of [main] are stated with *)

(** The integer value of the attribute [name], if the blueprint has it as
    an integer attribute. *)
Definition int_attribute (name : string) (bp : ActorBlueprint) : option Z :=
  match lookup_attribute name (bp_attributes bp) with
  | Some a =>
      match attr_type a with
      | AttrInt => Some (atoi (attr_value a))
      | _ => None
      end
  | None => None
  end.

(** The model names [--safe] excludes. *)
Definition unsafe_models : list string :=
  ["microlino"; "carlacola"; "cybertruck"; "t2"; "sprinter"; "firetruck"; "ambulance"].

(** A blueprint [--safe] keeps. *)
Definition is_safe (bp : ActorBlueprint) : bool :=
  match int_attribute "number_of_wheels" bp with
  | Some n => Z.eqb n 4
  | None => false
  end &&
  forallb (fun model => negb (endswith (bp_id bp) model)) unsafe_models.

Definition has_wheel_count (bp : ActorBlueprint) : bool :=
  match int_attribute "number_of_wheels" bp with
  | Some _ => true
  | None => false
  end.

(** The test of the comprehension of line 149. *)
Definition wheels_test (x : ActorBlueprint) : M (R:=R) (W:=W) bool :=
  bind (get_attribute x "number_of_wheels")
    (fun a => bind (int_of_attribute a) (fun n => ret (Z.eqb n 4))).

Definition has_four_wheels (bp : ActorBlueprint) : bool :=
  match int_attribute "number_of_wheels" bp with
  | Some n => Z.eqb n 4
  | None => false
  end.

(** Whether the script becomes the synchronous master, and the settings it
    applies, for the settings [settings] of the world it finds. *)
Definition becomes_master (args : Args) (settings : WorldSettings R Other) : bool :=
  negb (asynch args) && negb (synchronous_mode settings).

Definition applied_settings (args : Args) (settings : WorldSettings R Other)
  : WorldSettings R Other :=
  if becomes_master args settings
  then mkSettings true (Some float_0_05) (other_settings settings)
  else settings.

Definition is_destroyed (e : main_event R Other) : bool :=
  match e with Destroyed _ => true | _ => false end.

Definition is_applied_settings (e : main_event R Other) : bool :=
  match e with AppliedSettings _ => true | _ => false end.

Definition is_tick (e : main_event R Other) : bool :=
  match e with Ticked | WaitedForTick => true | _ => false end.

(** The ego vehicle of lines 161-165. *)
Definition find_ego_vehicle (w : W) : option Actor :=
  List.find
    (fun vehicle =>
       contains "ego_vehicle" (dict_get "role_name" "" (actor_attributes vehicle)))
    (List.filter (actor_matches "vehicle.*") (get_actors w)).

(** The world call of a round of the idle loop, and its event. *)
Definition idle_round (args : Args) (synchronous_master : bool) : W -> W :=
  if negb (asynch args) && synchronous_master then tick else wait_for_tick.

Definition idle_event (args : Args) (synchronous_master : bool) : main_event R Other :=
  if negb (asynch args) && synchronous_master then Ticked else WaitedForTick.

(** A state with another world. *)
Definition with_world (f : W -> W) (s : state R W) : state R W :=
  mkState (f (world s)) (heap s) (rng s) (requests s) (stdout s).

(** The events of the [finally] block for the list [l]. *)
Definition cleanup_events (l : list Z) : list (main_event R Other) :=
  [PrintedDestroying (length l); Destroyed l; Slept].

(** The state in which lines 161-174 run when [main] starts from [s]: the
    settings are applied to the world, and the warning of
    [get_actor_blueprints], if any, is printed. *)
Definition prepared (args : Args) (s : state R W) : state R W :=
  let w1 := apply_settings (applied_settings args (get_settings (world s))) (world s) in
  mkState w1 (heap s) (rng s) (requests s)
    (stdout s ++
     generation_warning
       (List.filter (blueprint_matches (filterv args)) (get_blueprint_library w1))
       (generationv args)).

(** The events of [main] up to there. *)
Definition opening_events (args : Args) (s : state R W) : list (main_event R Other) :=
  (if asynch args then [PrintedAsynchronousNotice] else []) ++
  [AppliedSettings (applied_settings args (get_settings (world s)))] ++
  List.map Printed
    (generation_warning
       (List.filter (blueprint_matches (filterv args))
          (get_blueprint_library
             (apply_settings (applied_settings args (get_settings (world s))) (world s))))
       (generationv args)).

(** The blueprints [main] computes on lines 146. *)
Definition listed_blueprints (args : Args) (s : state R W) : list ActorBlueprint :=
  blueprints_of_generation
    (List.filter (blueprint_matches (filterv args))
       (get_blueprint_library
          (apply_settings (applied_settings args (get_settings (world s))) (world s))))
    (generationv args).

Definition is_warning (e : main_event R Other) : bool :=
  match e with Printed MsgGenerationNotValid => true | _ => false end.

(** The events of the program since the state [ms]. *)
Definition new_events (ms ms' : main_state R W Other) : list (main_event R Other) :=
  drop (length (console ms)) (console ms').

End Main.

(** ** A test double

    Exact rational coordinates, and a simulator that refuses every pose
    whose height is below the clearance of the obstacle at the spawn point
    and accepts every other one.  It runs the script on concrete inputs. *)

Definition Qc_of_Z (n : Z) : Qc := Q2Qc (inject_Z n).

(** The forward vector of the axis-aligned headings; the double knows no
    other. *)
Definition axis_forward (r : Rotation Qc) : Vector3D Qc :=
  if Qc_eq_dec (yaw r) (Qc_of_Z 90) then mkVector3D (Qc_of_Z 0) (Qc_of_Z 1) (Qc_of_Z 0)
  else if Qc_eq_dec (yaw r) (Qc_of_Z 180) then mkVector3D (Qc_of_Z (-1)) (Qc_of_Z 0) (Qc_of_Z 0)
  else if Qc_eq_dec (yaw r) (Qc_of_Z 270) then mkVector3D (Qc_of_Z 0) (Qc_of_Z (-1)) (Qc_of_Z 0)
  else mkVector3D (Qc_of_Z 1) (Qc_of_Z 0) (Qc_of_Z 0).

#[export] Instance Qc_arith : Arith Qc := {|
  fadd := Qcplus;
  fmul := Qcmult;
  of_int := Qc_of_Z;
  half := Q2Qc (1 # 2);
  rotation_forward_vector := axis_forward
|}.

Record sim := mkSim {
  sim_actors : list Actor;
  sim_poses : list (Z * Transform Qc);
  sim_library : list ActorBlueprint;
  sim_clearance : Qc
}.

Definition origin : Transform Qc :=
  mkTransform (mkLocation (Qc_of_Z 0) (Qc_of_Z 0) (Qc_of_Z 0))
    (mkRotation (Qc_of_Z 0) (Qc_of_Z 0) (Qc_of_Z 0)).

Fixpoint sim_pose (id : Z) (poses : list (Z * Transform Qc)) : Transform Qc :=
  match poses with
  | [] => origin
  | (k, t) :: rest => if Z.eqb k id then t else sim_pose id rest
  end.

Definition sim_next_id (w : sim) : Z :=
  1 + fold_right Z.max 0 (List.map actor_id (sim_actors w)).

Definition sim_try_spawn_actor (bp : ActorBlueprint) (tf : Transform Qc) (w : sim)
  : option Actor * sim :=
  if Qle_bool (this (sim_clearance w)) (this (z (location tf))) then
    let a := mkActor (sim_next_id w) (bp_id bp)
               (List.map (fun at_ => (attr_id at_, attr_value at_)) (bp_attributes bp)) in
    (Some a,
     mkSim (sim_actors w ++ [a]) ((actor_id a, tf) :: sim_poses w)
       (sim_library w) (sim_clearance w))
  else (None, w).

#[export] Instance sim_world : WorldAuthority Qc sim := {|
  try_spawn_actor := sim_try_spawn_actor;
  get_actors := sim_actors;
  actor_transform := fun a w => sim_pose (actor_id a) (sim_poses w);
  get_blueprint_library := sim_library
|}.

(** Patterns of the double: a trailing [*] matches any suffix. *)
Fixpoint glob (pattern s : string) : bool :=
  match pattern, s with
  | String "*"%char EmptyString, _ => true
  | EmptyString, EmptyString => true
  | String a p', String b s' => Ascii.eqb a b && glob p' s'
  | _, _ => false
  end.

#[export] Instance sim_client : ClientLibrary := {|
  blueprint_matches := fun pattern bp => glob pattern (bp_id bp);
  actor_matches := fun pattern a => glob pattern (type_id a);
  valid_attribute_value := fun _ _ => true
|}.

Definition tesla : ActorBlueprint :=
  mkBlueprint "vehicle.tesla.model3"
    [ mkAttribute "color" AttrRGBColor "17,37,103" ["17,37,103"; "255,255,255"; "0,0,0"] true;
      mkAttribute "generation" AttrInt "1" [] false;
      mkAttribute "number_of_wheels" AttrInt "4" [] false;
      mkAttribute "role_name" AttrString "autopilot" ["autopilot"; "scenario"; "ego_vehicle"] true ].

Definition audi : ActorBlueprint :=
  mkBlueprint "vehicle.audi.tt"
    [ mkAttribute "generation" AttrInt "2" [] false;
      mkAttribute "role_name" AttrString "autopilot" [] true ].

Definition street_sign : ActorBlueprint :=
  mkBlueprint "static.prop.streetsign"
    [ mkAttribute "role_name" AttrString "default" [] true ].

Definition ego : Actor :=
  mkActor 7 "vehicle.lincoln.mkz_2020" [("role_name", "ego_vehicle")].

Definition ego_pose : Transform Qc :=
  mkTransform (mkLocation (Qc_of_Z 10) (Qc_of_Z 20) (Qc_of_Z 0))
    (mkRotation (Qc_of_Z 0) (Qc_of_Z 90) (Qc_of_Z 0)).

(** A world with the ego vehicle at [ego_pose] and an obstacle of the given
    height (in half units) in front of it. *)
Definition sim_with_clearance (halves : Z) : sim :=
  mkSim [ego] [(7, ego_pose)] [audi; tesla; street_sign]
    (Qcmult (Qc_of_Z halves) (Q2Qc (1 # 2))).

Definition initial (w : sim) : state Qc sim := mkState w [] [5%nat] [] [].

(** The Tesla blueprint as lines 54-60 configure it when the generator
    draws 5, and the actor the double makes of it. *)
Definition configured_tesla : ActorBlueprint :=
  mkBlueprint "vehicle.tesla.model3"
    [ mkAttribute "color" AttrRGBColor "0,0,0" ["17,37,103"; "255,255,255"; "0,0,0"] true;
      mkAttribute "generation" AttrInt "1" [] false;
      mkAttribute "number_of_wheels" AttrInt "4" [] false;
      mkAttribute "role_name" AttrString "stationary" ["autopilot"; "scenario"; "ego_vehicle"] true ].

Definition spawned_tesla : Actor :=
  mkActor 8 "vehicle.tesla.model3"
    [("color", "0,0,0"); ("generation", "1"); ("number_of_wheels", "4");
     ("role_name", "stationary")].

(** The double with settings and a frame counter, for [main]. *)
Record studio := mkStudio {
  studio_sim : sim;
  studio_settings : WorldSettings Qc unit;
  studio_frame : nat
}.

Definition studio_try_spawn_actor (bp : ActorBlueprint) (tf : Transform Qc) (w : studio)
  : option Actor * studio :=
  (fst (sim_try_spawn_actor bp tf (studio_sim w)),
   mkStudio (snd (sim_try_spawn_actor bp tf (studio_sim w)))
     (studio_settings w) (studio_frame w)).

#[export] Instance studio_world : WorldAuthority Qc studio := {|
  try_spawn_actor := studio_try_spawn_actor;
  get_actors := fun w => sim_actors (studio_sim w);
  actor_transform := fun a w => sim_pose (actor_id a) (sim_poses (studio_sim w));
  get_blueprint_library := fun w => sim_library (studio_sim w)
|}.

Definition sim_destroy (ids : list Z) (w : sim) : sim :=
  mkSim
    (List.filter (fun a => negb (existsb (Z.eqb (actor_id a)) ids)) (sim_actors w))
    (List.filter (fun p => negb (existsb (Z.eqb (fst p)) ids)) (sim_poses w))
    (sim_library w) (sim_clearance w).

Definition studio_next_frame (w : studio) : studio :=
  mkStudio (studio_sim w) (studio_settings w) (S (studio_frame w)).

#[export] Instance studio_simulation : Simulation Qc studio unit := {|
  get_settings := studio_settings;
  apply_settings := fun st w => mkStudio (studio_sim w) st (studio_frame w);
  tick := studio_next_frame;
  wait_for_tick := studio_next_frame;
  destroy_actors := fun ids w =>
    mkStudio (sim_destroy ids (studio_sim w)) (studio_settings w) (studio_frame w);
  float_0_05 := Q2Qc (1 # 20)
|}.

(** A studio with the ego vehicle and an obstacle of the given height, not
    yet in synchronous mode. *)
Definition studio_with_clearance (halves : Z) : studio :=
  mkStudio (sim_with_clearance halves) (mkSettings false None tt) 0.

(** The same studio without any vehicle. *)
Definition empty_studio : studio :=
  mkStudio (mkSim [] [] [audi; tesla; street_sign] (Qc_of_Z 0))
    (mkSettings false None tt) 0.

Definition main_initial (w : studio) : main_state Qc studio unit :=
  mkMainState (mkState w [] [5%nat] [] []) [] [].

(** Two more blueprints: a Tesla whose colour has no recommended values, and
    a model that [--safe] excludes. *)
Definition plain_tesla : ActorBlueprint :=
  mkBlueprint "vehicle.tesla.model3"
    [ mkAttribute "color" AttrRGBColor "0,0,0" [] true;
      mkAttribute "role_name" AttrString "autopilot" [] true ].

Definition cybertruck : ActorBlueprint :=
  mkBlueprint "vehicle.tesla.cybertruck"
    [ mkAttribute "generation" AttrInt "2" [] false;
      mkAttribute "number_of_wheels" AttrInt "4" [] false;
      mkAttribute "role_name" AttrString "autopilot" [] true ].

(** Command lines: [--safe --filterv "*"], and another filter and
    generation. *)
Definition safe_args : Args :=
  mkArgs "127.0.0.1" 2000 true "*" "All" 8000 false.

Definition walker_args : Args :=
  mkArgs "127.0.0.1" 2000 false "walker.*" "7" 8000 false.


(** ** A second double: binary64 coordinates

    The coordinates of the simulator are IEEE floats.  This double has
    Rocq's binary64 numbers for them, with their addition and
    multiplication, and an open field for a world: it accepts every
    placement. *)

Definition float_of_int (n : Z) : PrimFloat.float :=
  match n with
  | Zneg p => PrimFloat.opp (PrimFloat.of_uint63 (Uint63.of_Z (Zpos p)))
  | _ => PrimFloat.of_uint63 (Uint63.of_Z n)
  end.

Definition float_half : PrimFloat.float :=
  PrimFloat.div (float_of_int 1) (float_of_int 2).

(** The forward vector of a heading along the y axis; the double knows no
    other. *)
#[export] Instance float_arith : Arith PrimFloat.float := {|
  fadd := PrimFloat.add;
  fmul := PrimFloat.mul;
  of_int := float_of_int;
  half := float_half;
  rotation_forward_vector :=
    fun _ => mkVector3D (float_of_int 0) (float_of_int 1) (float_of_int 0)
|}.

Record field := mkField { field_actors : list Actor }.

(** The pose of every actor of the field: at (10, 20.5, 1.5), heading
    along the y axis. *)
Definition field_pose : Transform PrimFloat.float :=
  mkTransform
    (mkLocation (float_of_int 10)
       (PrimFloat.mul (float_of_int 41) float_half)
       (PrimFloat.mul (float_of_int 3) float_half))
    (mkRotation (float_of_int 0) (float_of_int 90) (float_of_int 0)).

Definition field_try_spawn_actor (bp : ActorBlueprint) (tf : Transform PrimFloat.float)
    (w : field) : option Actor * field :=
  let a := mkActor (1 + fold_right Z.max 0 (List.map actor_id (field_actors w)))
             (bp_id bp)
             (List.map (fun at_ => (attr_id at_, attr_value at_)) (bp_attributes bp)) in
  (Some a, mkField (field_actors w ++ [a])).

#[export] Instance field_world : WorldAuthority PrimFloat.float field := {|
  try_spawn_actor := field_try_spawn_actor;
  get_actors := field_actors;
  actor_transform := fun _ _ => field_pose;
  get_blueprint_library := fun _ => [audi; tesla; street_sign]
|}.

Definition field_initial : state PrimFloat.float field :=
  mkState (mkField [ego]) [] [5%nat] [] [].

(** ** Running the script *)

Section Properties.
Context {R W : Type} `{Arith R} `{WorldAuthority R W} `{ClientLibrary}.
Local Open Scope list_scope.

(** *** Running the operations *)

Lemma bind_ok {A B : Type} (m : M A) (k : A -> M B) (s s' : state R W) (a : A) :
  m s = (Ok a, s') -> bind m k s = k a s'.
Proof. intros E. unfold bind. now rewrite E. Qed.

Lemma bind_raise {A B : Type} (m : M A) (k : A -> M B) (s s' : state R W) (e : exn) :
  m s = (Raise e, s') -> bind m k s = (Raise e, s').
Proof. intros E. unfold bind. now rewrite E. Qed.

Lemma load_transform_run a t (s : state R W) :
  heap s !! a = Some (PTransform t) -> load_transform a s = (Ok t, s).
Proof. intros E. unfold load_transform, load, bind. now rewrite E. Qed.

Lemma load_vector_run a v (s : state R W) :
  heap s !! a = Some (PVector v) -> load_vector a s = (Ok v, s).
Proof. intros E. unfold load_vector, load, bind. now rewrite E. Qed.

Lemma load_location_run a l (s : state R W) :
  heap s !! a = Some (PLocation l) -> load_location a s = (Ok l, s).
Proof. intros E. unfold load_location, load, bind. now rewrite E. Qed.

Lemma store_run a o o' (s : state R W) :
  heap s !! a = Some o' ->
  store a o s =
    (Ok tt, mkState (world s) (<[a:=o]> (heap s)) (rng s) (requests s) (stdout s)).
Proof. intros E. unfold store. now rewrite E. Qed.

Lemma lookup_fresh (h : list (pyobj R)) o : (h ++ [o]) !! length h = Some o.
Proof. now apply list_lookup_middle. Qed.

Lemma insert_fresh (h : list (pyobj R)) o o' : <[length h:=o']> (h ++ [o]) = h ++ [o'].
Proof.
  rewrite insert_app_r_alt by lia. now rewrite Nat.sub_diag.
Qed.

Lemma lookup_old (h h' : list (pyobj R)) a o : h !! a = Some o -> (h ++ h') !! a = Some o.
Proof. apply lookup_app_l_Some. Qed.

Lemma attempt_run bp e f reference distance i (s : state R W) :
  heap s !! e = Some (PTransform reference) ->
  heap s !! f = Some (PVector (rotation_forward_vector (rotation reference))) ->
  let tf := candidate reference distance i in
  let r := fst (try_spawn_actor bp tf (world s)) in
  attempt bp e f distance i s =
    (Ok r,
     mkState (snd (try_spawn_actor bp tf (world s)))
       (heap s ++ attempt_objects (mkRequest bp tf r))
       (rng s)
       (requests s ++ [mkRequest bp tf r])
       (stdout s ++ match r with
                    | Some v => [MsgSpawned (actor_id v) (i + 1)]
                    | None => []
                    end)).
Proof.
  intros He Hf tf r. unfold attempt.
  rewrite (bind_ok _ _ _ _ _ (load_transform_run _ _ _ He)).
  rewrite (bind_ok _ _ _ _ _ (load_vector_run _ _ _ Hf)).
  unfold alloc at 1. unfold bind at 1.
  erewrite bind_ok by (apply load_location_run; simpl; apply lookup_fresh).
  erewrite bind_ok by (eapply store_run; simpl; apply lookup_fresh).
  simpl heap. rewrite insert_fresh.
  erewrite bind_ok by (apply load_location_run; simpl; apply lookup_fresh).
  erewrite bind_ok by (apply load_transform_run; simpl; apply lookup_old, He).
  unfold alloc at 1. unfold bind at 1. simpl.
  erewrite bind_ok by (apply load_transform_run; simpl; apply lookup_fresh).
  unfold world_try_spawn_actor, bind. simpl.
  fold (candidate_base reference distance).
  change (set_z _ _) with (location tf).
  change {| location := location tf; rotation := rotation reference |} with tf.
  fold r. destruct (try_spawn_actor bp tf (world s)) as [r' w'] eqn:E.
  subst r. simpl. destruct r'; unfold print, ret, attempt_objects; simpl;
    rewrite <- ?app_assoc; simpl; try rewrite app_nil_r; reflexivity.
Qed.

Lemma retry_loop_run bp e f reference distance indices (s : state R W) :
  heap s !! e = Some (PTransform reference) ->
  heap s !! f = Some (PVector (rotation_forward_vector (rotation reference))) ->
  let reqs := placements bp reference distance indices (world s) in
  exists out,
    for_each indices (attempt bp e f distance) s =
      (Ok (accepted reqs),
       mkState (submit reqs (world s))
         (heap s ++ concat (List.map attempt_objects reqs))
         (rng s) (requests s ++ reqs) (stdout s ++ out)).
Proof.
  revert s. induction indices as [|i rest IH]; intros s He Hf;
    cbn [for_each placements].
  - exists []. unfold ret, accepted. simpl. rewrite !app_nil_r. now destruct s.
  - erewrite bind_ok by (apply attempt_run; eassumption).
    destruct (try_spawn_actor bp (candidate reference distance i) (world s))
      as [[v|] w'] eqn:E; cbn [fst snd].
    + eexists. unfold ret, accepted. cbn [submit req_blueprint req_transform last].
      rewrite E. cbn [snd List.map concat req_response].
      rewrite app_nil_r. reflexivity.
    + set (s1 := mkState _ _ _ _ _).
      destruct (IH s1) as [out Hrun].
      * subst s1. simpl. now apply lookup_old.
      * subst s1. simpl. now apply lookup_old.
      * rewrite Hrun. subst s1. simpl. rewrite E. simpl.
        exists out. rewrite app_nil_r, <- !app_assoc. simpl.
        unfold accepted. simpl.
        destruct (placements bp reference distance rest w'); reflexivity.
Qed.

(** *** Computations that only use the random generator *)

Lemma generator_only_ret {A : Type} (a : A) : generator_only (R:=R) (W:=W) (ret a).
Proof. intros [w h g rq out]. unfold ret, with_rng. simpl. auto. Qed.

Lemma generator_only_raise {A : Type} (e : exn) : generator_only (R:=R) (W:=W) (raise (A:=A) e).
Proof. intros [w h g rq out]. unfold raise, with_rng. simpl. auto. Qed.

Lemma generator_only_bind {A B : Type} (m : M A) (k : A -> M B) :
  generator_only (R:=R) (W:=W) m -> (forall a, generator_only (R:=R) (W:=W) (k a)) -> generator_only (R:=R) (W:=W) (bind m k).
Proof.
  intros Hm Hk s. destruct (Hm s) as [Hs Hs']. unfold bind.
  destruct (m s) as [[a|e] s1] eqn:E; simpl in *.
  - destruct (Hk a s1) as [Hk1 Hk2]. split.
    + rewrite Hk1 at 1. rewrite Hs. reflexivity.
    + intros s' Hg. destruct (Hs' s' Hg) as [Ho Hr].
      destruct (Hm s') as [Hs2 _].
      destruct (m s') as [o' s1'] eqn:E'. simpl in *. subst o'.
      apply Hk2. rewrite Hr. reflexivity.
  - split; [assumption|]. intros s' Hg. destruct (Hs' s' Hg) as [Ho Hr].
    destruct (m s') as [o' s1'] eqn:E'. simpl in *. subst o'. auto.
Qed.

Lemma generator_only_random_choice a : generator_only (R:=R) (W:=W) (random_choice a).
Proof.
  intros [w h g rq out]. unfold random_choice, with_rng.
  destruct a; simpl; split; auto; intros s' ->; auto.
Qed.

Lemma generator_only_find lib id : generator_only (R:=R) (W:=W) (find lib id).
Proof.
  unfold find. destruct (List.find _ lib);
    auto using generator_only_ret, generator_only_raise.
Qed.

Lemma generator_only_get_attribute bp id : generator_only (R:=R) (W:=W) (get_attribute bp id).
Proof.
  unfold get_attribute. destruct (lookup_attribute _ _);
    auto using generator_only_ret, generator_only_raise.
Qed.

Lemma generator_only_set_attribute bp id v : generator_only (R:=R) (W:=W) (set_attribute bp id v).
Proof.
  unfold set_attribute. destruct (lookup_attribute _ _) as [a|];
    [destruct (_ && _)|]; auto using generator_only_ret, generator_only_raise.
Qed.

Lemma generator_only_configure_blueprint lib :
  generator_only (R:=R) (W:=W) (configure_blueprint lib).
Proof.
  unfold configure_blueprint.
  apply generator_only_bind; [apply generator_only_find|]. intros bp0.
  apply generator_only_bind; [|intros; apply generator_only_set_attribute].
  destruct (has_attribute bp0 "color"); [|apply generator_only_ret].
  apply generator_only_bind; [apply generator_only_get_attribute|]. intros a.
  apply generator_only_bind; [apply generator_only_random_choice|]. intros c.
  apply generator_only_set_attribute.
Qed.

(** *** The whole procedure *)

Lemma spawn_prefix lib ego_vehicle distance retries (s : state R W) :
  let reference := actor_transform ego_vehicle (world s) in
  spawn_vehicle_in_front_of_ego_vehicle lib ego_vehicle distance retries s =
  bind (configure_blueprint lib)
    (fun bp =>
       bind (for_each (range retries)
               (attempt bp (length (heap s)) (S (length (heap s))) distance))
         (fun r =>
            match r with
            | Some vehicle => ret (Some vehicle)
            | None => bind (print MsgFailed) (fun _ => ret None)
            end))
    (mkState (world s) (heap s ++ reference_objects reference) (rng s)
       (requests s) (stdout s)).
Proof.
  intros reference. unfold spawn_vehicle_in_front_of_ego_vehicle.
  unfold get_transform at 1. unfold alloc at 1. unfold bind at 1.
  erewrite bind_ok by (apply load_transform_run; simpl; apply lookup_fresh).
  unfold alloc at 1. unfold bind at 1. cbn [heap world rng requests stdout].
  fold reference. unfold get_forward_vector, reference_objects.
  rewrite <- app_assoc, length_app. simpl. rewrite Nat.add_1_r. reflexivity.
Qed.

Lemma spawn_run lib ego_vehicle distance retries (s : state R W) :
  let reference := actor_transform ego_vehicle (world s) in
  match fst (configure_blueprint lib s) with
  | Ok bp =>
      let reqs := placements bp reference distance (range retries) (world s) in
      exists g out,
        spawn_vehicle_in_front_of_ego_vehicle lib ego_vehicle distance retries s =
          (Ok (accepted reqs),
           mkState (submit reqs (world s))
             (heap s ++ reference_objects reference ++
              concat (List.map attempt_objects reqs))
             g (requests s ++ reqs) (stdout s ++ out))
  | Raise e =>
      exists g,
        spawn_vehicle_in_front_of_ego_vehicle lib ego_vehicle distance retries s =
          (Raise e,
           mkState (world s) (heap s ++ reference_objects reference) g
             (requests s) (stdout s))
  end.
Proof.
  intros reference. rewrite spawn_prefix. fold reference.
  set (s2 := mkState _ _ _ _ _).
  destruct (generator_only_configure_blueprint lib s) as [_ Hframe].
  destruct (Hframe s2 eq_refl) as [Ho _].
  destruct (generator_only_configure_blueprint lib s2) as [Hs2 _].
  destruct (configure_blueprint lib s2) as [o s3] eqn:E. simpl in Ho, Hs2.
  rewrite <- Ho. destruct o as [bp|e].
  - rewrite (bind_ok _ _ _ _ _ E).
    set (reqs := placements bp reference distance (range retries) (world s)).
    destruct (retry_loop_run bp (length (heap s)) (S (length (heap s)))
                reference distance (range retries) s3) as [out Hrun].
    + rewrite Hs2. subst s2. simpl. now apply list_lookup_middle.
    + rewrite Hs2. subst s2. simpl. unfold reference_objects.
      change (heap s ++ [PTransform reference; ?v]) with
        (heap s ++ [PTransform reference] ++ [v]).
      rewrite app_assoc. apply list_lookup_middle.
      rewrite length_app. simpl. lia.
    + rewrite (bind_ok _ _ _ _ _ Hrun).
      assert (Hw : world s3 = world s) by (rewrite Hs2; reflexivity).
      rewrite Hw. fold reqs.
      assert (Hh : heap s3 = heap s ++ reference_objects reference)
        by (rewrite Hs2; reflexivity).
      assert (Hr : requests s3 = requests s) by (rewrite Hs2; reflexivity).
      assert (Hout : stdout s3 = stdout s) by (rewrite Hs2; reflexivity).
      rewrite Hh, Hr, Hout, <- !app_assoc.
      destruct (accepted reqs) as [v|] eqn:Ha.
      * exists (rng s3), out. unfold ret. now rewrite Ha.
      * exists (rng s3), (out ++ [MsgFailed]). unfold print, bind, ret. simpl.
        now rewrite Ha, <- app_assoc.
  - rewrite (bind_raise _ _ _ _ _ E). exists (rng s3).
    rewrite Hs2 at 1. reflexivity.
Qed.

(** *** The list of placement requests *)

Lemma range_lookup retries (n : nat) (i : Z) :
  range retries !! n = Some i -> i = Z.of_nat n /\ i < retries.
Proof.
  unfold range. rewrite list_lookup_fmap. intros E.
  destruct (seq 0 (Z.to_nat retries) !! n) as [m|] eqn:Em; [|discriminate].
  apply lookup_seq in Em. destruct Em as [-> Hlt]. simpl in E.
  inversion E. split; lia.
Qed.

Lemma range_length retries : length (range retries) = Z.to_nat retries.
Proof. unfold range. now rewrite length_map, length_seq. Qed.

Lemma range_nonpositive retries : retries <= 0 -> range retries = [].
Proof.
  intros Hle. unfold range. replace (Z.to_nat retries) with 0%nat by lia. reflexivity.
Qed.

Lemma range_split k retries :
  0 <= k < retries ->
  exists rest, range retries = range k ++ k :: rest.
Proof.
  intros Hk. unfold range.
  replace (Z.to_nat retries)
    with (Z.to_nat k + S (Z.to_nat retries - S (Z.to_nat k)))%nat by lia.
  rewrite seq_app, map_app. simpl.
  rewrite Z2Nat.id by lia. eexists. reflexivity.
Qed.

Lemma range_succ (k : nat) :
  range (Z.of_nat (S k)) = range (Z.of_nat k) ++ [Z.of_nat k].
Proof.
  unfold range. rewrite !Nat2Z.id. rewrite seq_S, map_app. reflexivity.
Qed.

Lemma placements_lookup bp reference distance indices w (n : nat) rq :
  placements bp reference distance indices w !! n = Some rq ->
  exists i,
    indices !! n = Some i /\
    req_blueprint rq = bp /\
    req_transform rq = candidate reference distance i.
Proof.
  revert w n. induction indices as [|i rest IH]; intros w n E; [discriminate|].
  cbn [placements] in E. destruct n as [|n].
  - inversion E. exists i. auto.
  - simpl in E.
    destruct (fst (try_spawn_actor bp (candidate reference distance i) w));
      [discriminate|].
    apply IH in E. exact E.
Qed.

(** The loop reaches every index, unless a request before it was accepted. *)
Lemma placements_reach bp reference distance indices w (n : nat) :
  (n < length indices)%nat ->
  (exists rq, placements bp reference distance indices w !! n = Some rq) \/
  (exists (j : nat) rq a,
     (j < n)%nat /\
     placements bp reference distance indices w !! j = Some rq /\
     req_response rq = Some a).
Proof.
  revert w n. induction indices as [|i rest IH]; intros w n Hn; [simpl in Hn; lia|].
  cbn [placements]. destruct n as [|n]; [left; eexists; reflexivity|].
  destruct (try_spawn_actor bp (candidate reference distance i) w) as [[a|] w'] eqn:E;
    cbn [fst snd].
  - right. exists 0%nat. eexists. exists a. split; [lia|]. split; reflexivity.
  - simpl in Hn. destruct (IH w' n ltac:(lia)) as [[rq Hrq]|(j & rq & a & Hj & Hrq & Ha)].
    + left. exists rq. exact Hrq.
    + right. exists (S j), rq, a. split; [lia|]. split; assumption.
Qed.

(** Either every request was refused, and the loop ran to its end, or the
    last request is the only accepted one. *)
Lemma placements_cases bp reference distance indices w :
  let reqs := placements bp reference distance indices w in
  (Forall refused reqs /\ length reqs = length indices /\ accepted reqs = None) \/
  (exists pre rq a,
     reqs = pre ++ [rq] /\ Forall refused pre /\
     req_response rq = Some a /\ accepted reqs = Some a /\
     fst (try_spawn_actor (req_blueprint rq) (req_transform rq) (submit pre w)) = Some a).
Proof.
  revert w. induction indices as [|i rest IH]; intros w; cbn [placements].
  - left. repeat split. constructor.
  - destruct (try_spawn_actor bp (candidate reference distance i) w) as [[a|] w'] eqn:E;
      cbn [fst snd].
    + right. exists [], (mkRequest bp (candidate reference distance i) (Some a)), a.
      simpl. rewrite E. repeat split. constructor.
    + destruct (IH w') as [(Hall & Hlen & Hacc)|(pre & rq & a & Hreqs & Hpre & Hrq & Hacc & Hw)].
      * left. repeat split.
        -- constructor; [reflexivity|assumption].
        -- simpl. now rewrite Hlen.
        -- unfold accepted in *.
           destruct (placements bp reference distance rest w'); [reflexivity|].
           exact Hacc.
      * right. exists (mkRequest bp (candidate reference distance i) None :: pre), rq, a.
        repeat split.
        -- simpl. now rewrite Hreqs.
        -- constructor; [reflexivity|assumption].
        -- assumption.
        -- unfold accepted in *. rewrite Hreqs in *.
           destruct (pre ++ [rq]) eqn:Epre; [now destruct pre|]. exact Hacc.
        -- simpl. rewrite E. exact Hw.
Qed.

Lemma placements_app_refused bp reference distance pre post w :
  Forall refused (placements bp reference distance pre w) ->
  placements bp reference distance (pre ++ post) w =
    placements bp reference distance pre w ++
    placements bp reference distance post
      (submit (placements bp reference distance pre w) w).
Proof.
  revert w. induction pre as [|i rest IH]; intros w Hall; [reflexivity|].
  cbn [placements app] in *.
  destruct (try_spawn_actor bp (candidate reference distance i) w) as [[a|] w'] eqn:E;
    cbn [fst snd] in *.
  - inversion Hall as [|? ? Hr _]. discriminate Hr.
  - inversion Hall as [|? ? _ Hrest]. subst.
    rewrite IH by assumption. simpl. now rewrite E.
Qed.

Lemma refusals_refused bp reference distance indices :
  Forall refused (List.map (refusal bp reference distance) indices).
Proof.
  induction indices as [|i rest IH]; simpl; constructor; [reflexivity|exact IH].
Qed.

(** When the authority refuses attempts [0 .. k-1], the loop over these
    indices issues exactly the [k] refused requests. *)
Lemma refused_prefix bp reference distance w (k : nat) :
  (forall j : nat, (j < k)%nat ->
     response_at bp reference distance w (Z.of_nat j) = None) ->
  placements bp reference distance (range (Z.of_nat k)) w =
    List.map (refusal bp reference distance) (range (Z.of_nat k)).
Proof.
  induction k as [|k IH]; intros Href; [reflexivity|].
  rewrite range_succ, map_app.
  assert (IHk := IH (fun j Hj => Href j (Nat.lt_lt_succ_r _ _ Hj))).
  rewrite placements_app_refused; rewrite IHk.
  - f_equal. cbn [placements List.map].
    pose proof (Href k (Nat.lt_succ_diag_r k)) as Hk. unfold response_at in Hk.
    fold (refusal bp reference distance) in Hk. rewrite Hk. reflexivity.
  - apply refusals_refused.
Qed.

Lemma accepted_refused (reqs : list (request R)) :
  Forall refused reqs -> accepted reqs = None.
Proof.
  intros Hall. unfold accepted. destruct (last reqs) as [rq|] eqn:E; [|reflexivity].
  apply last_Some in E. destruct E as [pre ->].
  apply Forall_app in Hall. destruct Hall as [_ Hrq]. now inversion Hrq.
Qed.

Lemma refused_not_accepted (reqs : list (request R)) :
  Forall refused reqs -> List.filter is_accepted reqs = [].
Proof.
  induction 1 as [|rq rest Hrq _ IH]; [reflexivity|].
  simpl. unfold is_accepted. rewrite Hrq. exact IH.
Qed.

(** A run of the procedure, in one statement: the requests are those of
    [placements] for the configured blueprint, the world has handled them
    and nothing else, and the heap has grown by the objects of the call. *)
Lemma spawn_cases lib ego_vehicle distance retries (s : state R W) :
  let run := spawn_vehicle_in_front_of_ego_vehicle lib ego_vehicle distance retries s in
  let reference := actor_transform ego_vehicle (world s) in
  exists reqs,
    requests (snd run) = requests s ++ reqs /\
    world (snd run) = submit reqs (world s) /\
    heap (snd run) =
      heap s ++ reference_objects reference ++ concat (List.map attempt_objects reqs) /\
    ((exists bp,
        fst (configure_blueprint lib s) = Ok bp /\
        reqs = placements bp reference distance (range retries) (world s) /\
        fst run = Ok (accepted reqs)) \/
     (exists e,
        fst (configure_blueprint lib s) = Raise e /\ reqs = [] /\ fst run = Raise e)).
Proof.
  intros run reference. subst run.
  pose proof (spawn_run lib ego_vehicle distance retries s) as Hrun.
  cbv zeta in Hrun. fold reference in Hrun.
  destruct (fst (configure_blueprint lib s)) as [bp|e] eqn:E.
  - destruct Hrun as (g & out & ->).
    exists (placements bp reference distance (range retries) (world s)).
    simpl. repeat split. left. exists bp. auto.
  - destruct Hrun as (g & ->). exists []. simpl.
    rewrite !app_nil_r. repeat split. right. exists e. auto.
Qed.

Lemma new_requests_app (s s' : state R W) reqs :
  requests s' = requests s ++ reqs -> new_requests s s' = reqs.
Proof. intros E. unfold new_requests. rewrite E. apply drop_app_length. Qed.

Lemma submit_app reqs1 reqs2 (w : W) :
  submit (reqs1 ++ reqs2) w = submit reqs2 (submit reqs1 w).
Proof. revert w. induction reqs1 as [|rq rest IH]; intros w; simpl; auto. Qed.

Lemma placements_refused_submit {contract : PlacementContract (R:=R) (W:=W)} bp reference distance indices w :
  Forall refused (placements bp reference distance indices w) ->
  submit (placements bp reference distance indices w) w = w.
Proof.
  revert w. induction indices as [|i rest IH]; intros w Hall; [reflexivity|].
  cbn [placements] in *. inversion Hall as [|? ? Hr Hrest]. subst.
  unfold refused in Hr. cbn [req_response] in Hr. rewrite Hr in *.
  cbn [submit req_blueprint req_transform].
  rewrite (refusal_changes_nothing _ _ _ Hr) in *. now apply IH.
Qed.

Lemma placements_prefix_submit {contract : PlacementContract (R:=R) (W:=W)} bp reference distance indices w pre rq :
  placements bp reference distance indices w = pre ++ [rq] ->
  Forall refused pre ->
  submit pre w = w.
Proof.
  revert w pre. induction indices as [|i rest IH]; intros w pre E Hpre.
  - now destruct pre.
  - cbn [placements] in E. destruct pre as [|rq0 pre]; [reflexivity|].
    inversion E as [[E0 E1]]. inversion Hpre as [|? ? Hr Hrest]. subst.
    unfold refused in Hr. cbn [req_response] in Hr. rewrite Hr in *.
    cbn [submit req_blueprint req_transform].
    rewrite (refusal_changes_nothing _ _ _ Hr) in *. eapply IH; eauto.
Qed.

(** ** The claims about the spawn-placement procedure *)

(** C1.  Attempt [i] of a call, for every [i] from 0 below [retries], asks
    for the placement at the candidate pose of [i]: the reference position
    plus the forward vector of the reference orientation times the distance,
    with [i * 0.5] added to the vertical coordinate, in the reference
    orientation.  The request of attempt [i] is the one at index [i] of the
    log; it is made unless an earlier request was accepted or the blueprint
    could not be configured, and no request is made for an index from
    [retries] on.  Every request has the two horizontal coordinates and the
    orientation of the request of attempt 0. *)
Theorem candidate_pose_of_every_attempt lib ego_vehicle distance retries (s : state R W) :
  let run := spawn_vehicle_in_front_of_ego_vehicle lib ego_vehicle distance retries s in
  let reference := actor_transform ego_vehicle (world s) in
  let forward := rotation_forward_vector (rotation reference) in
  let pose (i : Z) :=
    mkTransform
      (mkLocation
         (fadd (x (location reference)) (fmul (vec_x forward) distance))
         (fadd (y (location reference)) (fmul (vec_y forward) distance))
         (fadd (fadd (z (location reference)) (fmul (vec_z forward) distance))
            (fmul (of_int i) half)))
      (rotation reference) in
  let issued := new_requests s (snd run) in
  (forall (i : nat) rq,
     issued !! i = Some rq ->
     Z.of_nat i < retries /\ req_transform rq = pose (Z.of_nat i)) /\
  (forall i : nat,
     Z.of_nat i < retries ->
     (exists rq, issued !! i = Some rq) \/
     (exists (j : nat) rq a,
        (j < i)%nat /\ issued !! j = Some rq /\ req_response rq = Some a) \/
     (exists e, fst (configure_blueprint lib s) = Raise e /\ fst run = Raise e)) /\
  (forall (i : nat) rq rq0,
     issued !! i = Some rq ->
     issued !! 0%nat = Some rq0 ->
     x (location (req_transform rq)) = x (location (req_transform rq0)) /\
     y (location (req_transform rq)) = y (location (req_transform rq0)) /\
     rotation (req_transform rq) = rotation (req_transform rq0) /\
     rotation (req_transform rq) = rotation reference).
Proof.
  intros run reference forward pose issued.
  destruct (spawn_cases lib ego_vehicle distance retries s)
    as (reqs & Hreq & _ & _ & Hcases).
  fold run reference in Hreq, Hcases.
  assert (Hissued : issued = reqs) by now apply new_requests_app.
  rewrite Hissued. clear Hissued issued.
  assert (Hpose : forall (i : nat) rq,
            reqs !! i = Some rq ->
            Z.of_nat i < retries /\ req_transform rq = pose (Z.of_nat i)).
  { intros i rq E.
    destruct Hcases as [(bp & _ & -> & _)|(e & _ & -> & _)]; [|discriminate E].
    destruct (placements_lookup _ _ _ _ _ _ _ E) as (k & Hk & _ & ->).
    apply range_lookup in Hk. destruct Hk as [-> Hlt]. split; [exact Hlt|reflexivity]. }
  split; [exact Hpose|split].
  - intros i Hi.
    destruct Hcases as [(bp & _ & -> & _)|(e & He & _ & Hres)].
    + destruct (placements_reach bp reference distance (range retries) (world s) i)
        as [Hrq|Hacc]; [rewrite range_length; lia|left; exact Hrq|right; left; exact Hacc].
    + right. right. exists e. split; assumption.
  - intros i rq rq0 E E0.
    destruct (Hpose _ _ E) as [_ ->]. destruct (Hpose _ _ E0) as [_ ->].
    repeat split.
Qed.

(** C4.  Whatever the authority answers, at most one placement request of a
    call is accepted; it is the last request of the call, and its handle is
    the one the call returns, so that a call obtains at most one object from
    the authority.  The world has handled the logged requests and nothing
    else.  For an authority that keeps the placement contract the call
    therefore adds at most one actor to the world. *)
Theorem at_most_one_placement_succeeds lib ego_vehicle distance retries (s : state R W) :
  let run := spawn_vehicle_in_front_of_ego_vehicle lib ego_vehicle distance retries s in
  let issued := new_requests s (snd run) in
  (length (List.filter is_accepted issued) <= 1)%nat /\
  List.map req_response (List.filter is_accepted issued) =
    match fst run with
    | Ok (Some a) => [Some a]
    | _ => []
    end /\
  (forall (i : nat) rq,
     issued !! i = Some rq -> is_accepted rq = true -> S i = length issued) /\
  world (snd run) = submit issued (world s) /\
  (PlacementContract (R:=R) (W:=W) ->
   (length (get_actors (world (snd run))) <= length (get_actors (world s)) + 1)%nat).
Proof.
  intros run issued.
  destruct (spawn_cases lib ego_vehicle distance retries s)
    as (reqs & Hreq & Hworld & _ & Hcases).
  fold run in Hreq, Hworld, Hcases.
  assert (Hissued : issued = reqs) by now apply new_requests_app.
  rewrite Hissued, Hworld. clear Hissued issued.
  destruct Hcases as [(bp & _ & -> & ->)|(e & _ & -> & ->)].
  2:{ simpl. repeat split; try lia. intros i rq E. discriminate E. }
  set (reference := actor_transform ego_vehicle (world s)).
  destruct (placements_cases bp reference distance (range retries) (world s))
    as [(Hall & _ & Hacc)|(pre & rq & a & Hreqs & Hpre & Hrq & Hacc & Hw)].
  - rewrite Hacc, (refused_not_accepted _ Hall). simpl. repeat split; try lia.
    + intros i rq E Hyes. pose proof (Forall_lookup_1 _ _ _ _ Hall E) as Hno.
      unfold is_accepted in Hyes. rewrite Hno in Hyes. discriminate Hyes.
    + intros contract. rewrite placements_refused_submit by assumption. lia.
  - rewrite Hacc, Hreqs.
    rewrite List.filter_app, (refused_not_accepted _ Hpre). simpl.
    unfold is_accepted at 1 2. rewrite Hrq. simpl. rewrite Hrq.
    repeat split; try lia.
    + intros i rq' E Hyes. rewrite length_app. simpl.
      destruct (Nat.lt_ge_cases i (length pre)) as [Hlt|Hge].
      * rewrite lookup_app_l in E by exact Hlt.
        pose proof (Forall_lookup_1 _ _ _ _ Hpre E) as Hno.
        unfold is_accepted in Hyes. rewrite Hno in Hyes. discriminate Hyes.
      * apply lookup_lt_Some in E. rewrite length_app in E. simpl in E. lia.
    + intros contract.
      pose proof (placements_prefix_submit _ _ _ _ _ _ _ Hreqs Hpre) as Hsub.
      rewrite submit_app, Hsub. rewrite Hsub in Hw.
      simpl. rewrite (acceptance_creates_one _ _ _ _ Hw). simpl. lia.
Qed.

(** C6.  A call never writes to the reference pose.  The [ego_transform]
    object of line 50 holds the pose read at the start when the call ends;
    the objects that existed before the call are as they were; every write
    of line 64 went to the [spawn_location] object of its own attempt, which
    lies behind them on the heap; and the world was asked for placements
    only. *)
Theorem reference_pose_never_mutated lib ego_vehicle distance retries (s : state R W) :
  let s' := snd (spawn_vehicle_in_front_of_ego_vehicle lib ego_vehicle distance retries s) in
  let reference := actor_transform ego_vehicle (world s) in
  let issued := new_requests s s' in
  heap s' !! length (heap s) = Some (PTransform reference) /\
  take (length (heap s)) (heap s') = heap s /\
  heap s' =
    heap s ++ reference_objects reference ++ concat (List.map attempt_objects issued) /\
  world s' = submit issued (world s) /\
  List.map (fun rq => rotation (req_transform rq)) issued =
    List.map (fun _ => rotation reference) issued.
Proof.
  intros s' reference issued.
  destruct (spawn_cases lib ego_vehicle distance retries s)
    as (reqs & Hreq & Hworld & Hheap & Hcases).
  fold s' reference in Hreq, Hworld, Hheap, Hcases.
  assert (Hissued : issued = reqs) by now apply new_requests_app.
  rewrite Hissued, Hheap, Hworld. repeat split.
  - now apply list_lookup_middle.
  - apply take_app_length.
  - destruct Hcases as [(bp & _ & -> & _)|(e & _ & -> & _)]; [|reflexivity].
    apply list_eq. intros n. rewrite !list_lookup_fmap.
    destruct (placements bp reference distance (range retries) (world s) !! n)
      as [rq|] eqn:E; simpl; [|reflexivity].
    destruct (placements_lookup _ _ _ _ _ _ _ E) as (i & _ & _ & ->). reflexivity.
Qed.

(** C7.  Under the placement contract: when every placement attempt of a
    call is refused and the call returns [None], the world is exactly as
    before the call; when the call returns a handle, the world holds that
    one actor more, and the handle is what the caller gets. *)
Theorem failure_leaves_world_unchanged {contract : PlacementContract (R:=R) (W:=W)}
    lib ego_vehicle distance retries (s : state R W) :
  let run := spawn_vehicle_in_front_of_ego_vehicle lib ego_vehicle distance retries s in
  match fst run with
  | Ok None =>
      world (snd run) = world s /\
      Forall refused (new_requests s (snd run))
  | Ok (Some a) =>
      get_actors (world (snd run)) ≡ₚ a :: get_actors (world s) /\
      accepted (new_requests s (snd run)) = Some a
  | Raise _ => world (snd run) = world s
  end.
Proof.
  intros run.
  destruct (spawn_cases lib ego_vehicle distance retries s)
    as (reqs & Hreq & Hworld & _ & Hcases).
  fold run in Hreq, Hworld, Hcases.
  rewrite (new_requests_app _ _ _ Hreq), Hworld.
  destruct Hcases as [(bp & _ & -> & ->)|(e & _ & -> & ->)]; [|reflexivity].
  set (reference := actor_transform ego_vehicle (world s)).
  destruct (placements_cases bp reference distance (range retries) (world s))
    as [(Hall & _ & Hacc)|(pre & rq & a & Hreqs & Hpre & Hrq & Hacc & Hw)].
  - rewrite Hacc. split; [now apply placements_refused_submit|assumption].
  - rewrite Hacc. split; [|reflexivity].
    pose proof (placements_prefix_submit _ _ _ _ _ _ _ Hreqs Hpre) as Hsub.
    rewrite Hreqs, submit_app, Hsub. rewrite Hsub in Hw.
    simpl. now apply acceptance_creates_one.
Qed.

(** C2.  When the authority refuses the attempts before attempt [k] and
    accepts attempt [k], with [k < retries], the call returns the handle
    accepted on attempt [k] and issues exactly [k + 1] placement requests:
    the [k] refused ones and the accepted one, and none after it. *)
Theorem accepted_on_attempt_k lib ego_vehicle distance retries (s : state R W)
    bp (k : Z) (a : Actor) :
  let run := spawn_vehicle_in_front_of_ego_vehicle lib ego_vehicle distance retries s in
  let reference := actor_transform ego_vehicle (world s) in
  fst (configure_blueprint lib s) = Ok bp ->
  0 <= k < retries ->
  (forall j, 0 <= j < k -> response_at bp reference distance (world s) j = None) ->
  response_at bp reference distance (world s) k = Some a ->
  fst run = Ok (Some a) /\
  length (new_requests s (snd run)) = Z.to_nat (k + 1) /\
  new_requests s (snd run) =
    List.map (refusal bp reference distance) (range k) ++
    [mkRequest bp (candidate reference distance k) (Some a)].
Proof.
  intros run reference Hbp Hk Hrefused Haccepted.
  destruct (spawn_cases lib ego_vehicle distance retries s)
    as (reqs & Hreq & _ & _ & Hcases).
  fold run reference in Hreq, Hcases.
  rewrite (new_requests_app _ _ _ Hreq).
  destruct Hcases as [(bp' & Hbp' & Hreqs & Hres)|(e & He & _)]; [|congruence].
  assert (bp' = bp) by congruence. subst bp'.
  assert (Hpre : placements bp reference distance (range k) (world s) =
                 List.map (refusal bp reference distance) (range k)).
  { rewrite <- (Z2Nat.id k) by lia. apply refused_prefix.
    intros j Hj. apply Hrefused. lia. }
  destruct (range_split k retries Hk) as [rest Hrange].
  assert (Hshape : reqs =
            List.map (refusal bp reference distance) (range k) ++
            [mkRequest bp (candidate reference distance k) (Some a)]).
  { rewrite Hreqs, Hrange, placements_app_refused;
      rewrite Hpre; [|apply refusals_refused].
    f_equal. cbn [placements]. unfold response_at in Haccepted.
    fold (refusal bp reference distance) in Haccepted. rewrite Haccepted. reflexivity. }
  rewrite Hres, Hshape. repeat split.
  - unfold accepted. now rewrite last_snoc.
  - rewrite length_app, length_map, range_length. simpl. lia.
Qed.

(** C3.  When the authority refuses all [retries] attempts, the call issues
    exactly [retries] placement requests and returns [None]: it returns
    normally, it does not raise. *)
Theorem all_attempts_refused lib ego_vehicle distance retries (s : state R W) bp :
  let run := spawn_vehicle_in_front_of_ego_vehicle lib ego_vehicle distance retries s in
  let reference := actor_transform ego_vehicle (world s) in
  fst (configure_blueprint lib s) = Ok bp ->
  (forall j, 0 <= j < retries -> response_at bp reference distance (world s) j = None) ->
  fst run = Ok None /\
  length (new_requests s (snd run)) = Z.to_nat retries /\
  new_requests s (snd run) = List.map (refusal bp reference distance) (range retries).
Proof.
  intros run reference Hbp Hrefused.
  destruct (spawn_cases lib ego_vehicle distance retries s)
    as (reqs & Hreq & _ & _ & Hcases).
  fold run reference in Hreq, Hcases.
  rewrite (new_requests_app _ _ _ Hreq).
  destruct Hcases as [(bp' & Hbp' & Hreqs & Hres)|(e & He & _)]; [|congruence].
  assert (bp' = bp) by congruence. subst bp'.
  assert (Hshape : reqs = List.map (refusal bp reference distance) (range retries)).
  { rewrite Hreqs. destruct (Z_le_gt_dec retries 0) as [Hle|Hgt].
    - now rewrite (range_nonpositive _ Hle).
    - rewrite <- (Z2Nat.id retries) by lia. apply refused_prefix.
      intros j Hj. apply Hrefused. lia. }
  rewrite Hres, Hshape. repeat split.
  - f_equal. apply accepted_refused, refusals_refused.
  - now rewrite length_map, range_length.
Qed.

(** C5.  With [retries = 1] and a blueprint that can be configured the call
    makes exactly one placement attempt.  Its position is the reference
    position plus the forward vector times the distance in the two
    horizontal coordinates, and that height with [0 * 0.5] added in the
    vertical one: the offset is the one of index 0.  The position is the
    reference position plus the forward vector times the distance itself
    whenever adding [0 * 0.5] to that height gives that height, which is
    a matter of the arithmetic and of this one height. *)
Theorem single_attempt_has_zero_offset lib ego_vehicle distance (s : state R W) bp :
  let run := spawn_vehicle_in_front_of_ego_vehicle lib ego_vehicle distance 1 s in
  let reference := actor_transform ego_vehicle (world s) in
  let base :=
    location_add (location reference)
      (vector_mul (rotation_forward_vector (rotation reference)) distance) in
  fst (configure_blueprint lib s) = Ok bp ->
  exists rq,
    new_requests s (snd run) = [rq] /\
    location (req_transform rq) =
      mkLocation (x base) (y base) (fadd (z base) (fmul (of_int 0) half)) /\
    (fadd (z base) (fmul (of_int 0) half) = z base ->
     location (req_transform rq) = base).
Proof.
  intros run reference base Hbp.
  destruct (spawn_cases lib ego_vehicle distance 1 s)
    as (reqs & Hreq & _ & _ & Hcases).
  fold run reference in Hreq, Hcases.
  rewrite (new_requests_app _ _ _ Hreq).
  destruct Hcases as [(bp' & Hbp' & Hreqs & Hres)|(e & He & _)]; [|congruence].
  rewrite Hreqs. change (range 1) with [0]. cbn [placements].
  exists (mkRequest bp' (candidate reference distance 0)
            (fst (try_spawn_actor bp' (candidate reference distance 0) (world s)))).
  split; [|split].
  - destruct (fst (try_spawn_actor bp' (candidate reference distance 0) (world s)));
      reflexivity.
  - reflexivity.
  - intros Hz.
    change (mkLocation (x base) (y base) (fadd (z base) (fmul (of_int 0) half)) = base).
    rewrite Hz. now destruct base.
Qed.

(** C8.  With [retries <= 0] the call issues no placement request and
    returns [None]; nothing checks that [retries] is positive. *)
Theorem nonpositive_retries_return_none lib ego_vehicle distance retries
    (s : state R W) bp :
  let run := spawn_vehicle_in_front_of_ego_vehicle lib ego_vehicle distance retries s in
  fst (configure_blueprint lib s) = Ok bp ->
  retries <= 0 ->
  fst run = Ok None /\
  new_requests s (snd run) = [] /\
  world (snd run) = world s.
Proof.
  intros run Hbp Hle.
  destruct (spawn_cases lib ego_vehicle distance retries s)
    as (reqs & Hreq & Hworld & _ & Hcases).
  fold run in Hreq, Hworld, Hcases.
  rewrite (new_requests_app _ _ _ Hreq), Hworld.
  destruct Hcases as [(bp' & Hbp' & Hreqs & Hres)|(e & He & _)]; [|congruence].
  rewrite (range_nonpositive _ Hle) in Hreqs. simpl in Hreqs.
  rewrite Hres, Hreqs. auto.
Qed.

(** C10.  When the ego vehicle is found and the spawn procedure returns
    [None], the caller reads [.id] of that [None] at once: lines 161-174 end
    with an [AttributeError], not with a handled empty result. *)
Theorem main_raises_on_exhaustion (s : state R W) ego_vehicle :
  List.find
    (fun vehicle =>
       contains "ego_vehicle" (dict_get "role_name" "" (actor_attributes vehicle)))
    (List.filter (actor_matches "vehicle.*") (get_actors (world s))) = Some ego_vehicle ->
  fst (spawn_vehicle_in_front_of_ego_vehicle (get_blueprint_library (world s))
         ego_vehicle default_distance default_retries s) = Ok None ->
  fst (main_locate_and_spawn s) = Raise AttributeError /\
  stdout (snd (main_locate_and_spawn s)) =
    stdout (snd (spawn_vehicle_in_front_of_ego_vehicle (get_blueprint_library (world s))
                   ego_vehicle default_distance default_retries s)).
Proof.
  intros Hego Hnone.
  destruct (spawn_vehicle_in_front_of_ego_vehicle _ _ _ _ s) as [o s'] eqn:E.
  simpl in Hnone. subst o.
  assert (Hmain : main_locate_and_spawn s = (Raise AttributeError, s')).
  { unfold main_locate_and_spawn.
    unfold get_world at 1. unfold bind at 1. rewrite Hego.
    unfold get_world at 1. unfold bind at 1.
    rewrite (bind_ok _ _ _ _ _ E). reflexivity. }
  rewrite Hmain. auto.
Qed.

(** ** [get_actor_blueprints] *)

Lemma generation_test_run g bp (s : state R W) :
  if has_int_generation bp
  then generation_test g bp s = (Ok (has_generation g bp), s)
  else exists e, generation_test g bp s = (Raise e, s).
Proof.
  unfold generation_test, has_int_generation, has_generation, get_attribute,
    int_of_attribute.
  destruct (lookup_attribute "generation" (bp_attributes bp)) as [a|];
    [|eexists; reflexivity].
  cbn. destruct (attr_type a); cbn; try (eexists; reflexivity).
Qed.

Lemma generation_comprehension_run g bps (s : state R W) :
  if forallb has_int_generation bps
  then list_comprehension (generation_test g) bps s =
         (Ok (List.filter (has_generation g) bps), s)
  else exists e, list_comprehension (generation_test g) bps s = (Raise e, s).
Proof.
  induction bps as [|bp rest IH]; cbn [forallb list_comprehension List.filter].
  - reflexivity.
  - pose proof (generation_test_run g bp s) as Hbp.
    destruct (has_int_generation bp); cbn [andb].
    + rewrite (bind_ok _ _ _ _ _ Hbp).
      destruct (forallb has_int_generation rest).
      * rewrite (bind_ok _ _ _ _ _ IH). unfold ret.
        now destruct (has_generation g bp).
      * destruct IH as [e IH]. exists e. now rewrite (bind_raise _ _ _ _ _ IH).
    + destruct Hbp as [e Hbp]. exists e. now rewrite (bind_raise _ _ _ _ _ Hbp).
Qed.



End Properties.

(** ** More properties of the script *)

Section MoreProperties.
Context {R W : Type} `{Arith R} `{WorldAuthority R W} `{ClientLibrary}.
Local Open Scope list_scope.

(** *** The blueprint of lines 54-60 *)

Lemma lookup_attribute_replace_eq name value attrs a :
  lookup_attribute name attrs = Some a ->
  lookup_attribute name (replace_attribute name value attrs) =
    Some (mkAttribute (attr_id a) (attr_type a) value (recommended_values a)
            (is_modifiable a)).
Proof.
  unfold lookup_attribute. induction attrs as [|b rest IH]; simpl; [discriminate|].
  destruct (String.eqb (attr_id b) name) eqn:E; simpl.
  - intros [= ->]. now rewrite E.
  - intros Hfind. rewrite E. now apply IH.
Qed.

Lemma lookup_attribute_replace_ne name name' value attrs :
  name' <> name ->
  lookup_attribute name' (replace_attribute name value attrs) =
    lookup_attribute name' attrs.
Proof.
  intros Hne. unfold lookup_attribute.
  induction attrs as [|b rest IH]; simpl; [reflexivity|].
  destruct (String.eqb (attr_id b) name) eqn:E; simpl.
  - apply String.eqb_eq in E.
    destruct (String.eqb (attr_id b) name') eqn:E'; [|reflexivity].
    apply String.eqb_eq in E'. congruence.
  - destruct (String.eqb (attr_id b) name'); [reflexivity|exact IH].
Qed.

Lemma replace_attribute_ids name value attrs :
  List.map attr_id (replace_attribute name value attrs) = List.map attr_id attrs.
Proof.
  induction attrs as [|b rest IH]; simpl; [reflexivity|].
  destruct (String.eqb (attr_id b) name); simpl; [reflexivity|now rewrite IH].
Qed.

Lemma set_attribute_ok bp id value bp' (s s' : state R W) :
  set_attribute bp id value s = (Ok bp', s') ->
  s' = s /\
  bp' = mkBlueprint (bp_id bp) (replace_attribute id value (bp_attributes bp)) /\
  exists a, lookup_attribute id (bp_attributes bp) = Some a /\ is_modifiable a = true.
Proof.
  unfold set_attribute.
  destruct (lookup_attribute id (bp_attributes bp)) as [a|]; [|discriminate].
  destruct (is_modifiable a) eqn:Em; simpl; [|discriminate].
  destruct (valid_attribute_value (attr_type a) value); [|discriminate].
  unfold ret. intros [= <- <-]. eauto.
Qed.

Lemma random_choice_ok a c (s s' : state R W) :
  random_choice a s = (Ok c, s') -> In c a /\ rng s' = tl (rng s).
Proof.
  unfold random_choice. destruct a as [|v rest]; [discriminate|].
  generalize (Nat.mod_upper_bound
                (match rng s with d :: _ => d | [] => 0%nat end) (length (v :: rest))).
  set (n := (_ mod _)%nat). clearbody n. intros Hn [= <- <-].
  split; [|reflexivity]. change (In (nth n (v :: rest) v) (v :: rest)).
  apply nth_In. apply Hn. discriminate.
Qed.

(** The blueprint [configure_blueprint] returns, read off the library. *)
Lemma configure_blueprint_ok lib bp (s : state R W) :
  fst (configure_blueprint lib s) = Ok bp ->
  exists bp0,
    List.find (fun b => String.eqb (bp_id b) "vehicle.tesla.model3") lib = Some bp0 /\
    bp_id bp = "vehicle.tesla.model3" /\
    attribute_value "role_name" bp = Some "stationary" /\
    List.map attr_id (bp_attributes bp) = List.map attr_id (bp_attributes bp0) /\
    (forall name, name <> "color" -> name <> "role_name" ->
       lookup_attribute name (bp_attributes bp) =
       lookup_attribute name (bp_attributes bp0)) /\
    (forall a, lookup_attribute "color" (bp_attributes bp0) = Some a ->
       exists c, attribute_value "color" bp = Some c /\ In c (recommended_values a)) /\
    (lookup_attribute "color" (bp_attributes bp0) = None ->
       attribute_value "color" bp = None).
Proof.
  unfold configure_blueprint, find. intros Hrun.
  destruct (List.find _ lib) as [bp0|] eqn:Efind;
    [|unfold bind, raise in Hrun; discriminate].
  pose proof (find_some _ _ Efind) as [_ Hid]. apply String.eqb_eq in Hid.
  exists bp0. split; [reflexivity|].
  unfold bind at 1 in Hrun. unfold ret at 1 in Hrun. unfold bind at 1 in Hrun.
  unfold has_attribute, get_attribute in Hrun.
  destruct (lookup_attribute "color" (bp_attributes bp0)) as [a|] eqn:Ecol.
  - unfold bind at 1 in Hrun. unfold ret at 1 in Hrun. unfold bind at 1 in Hrun.
    destruct (random_choice (recommended_values a) s) as [[c|e] s1] eqn:Ec;
      [|discriminate].
    apply random_choice_ok in Ec. destruct Ec as [Hin _].
    destruct (set_attribute bp0 "color" c s1) as [[bp1|e] s2] eqn:E1; [|discriminate].
    apply set_attribute_ok in E1. destruct E1 as (-> & -> & _).
    destruct (set_attribute _ "role_name" "stationary" s1) as [[bp2|e] s3] eqn:E2;
      [|discriminate].
    apply set_attribute_ok in E2. destruct E2 as (-> & -> & a2 & Ha2 & _).
    simpl in Hrun. inversion Hrun. subst bp. simpl in *.
    unfold attribute_value. simpl.
    repeat split.
    + exact Hid.
    + now rewrite (lookup_attribute_replace_eq _ _ _ _ Ha2).
    + now rewrite !replace_attribute_ids.
    + intros name Hc Hr. now rewrite !lookup_attribute_replace_ne.
    + intros a' [= <-]. exists c.
      rewrite lookup_attribute_replace_ne by discriminate.
      now rewrite (lookup_attribute_replace_eq _ _ _ _ Ecol).
    + discriminate.
  - unfold ret at 1 in Hrun.
    destruct (set_attribute bp0 "role_name" "stationary" s) as [[bp2|e] s3] eqn:E2;
      [|discriminate].
    apply set_attribute_ok in E2. destruct E2 as (-> & -> & a2 & Ha2 & _).
    simpl in Hrun. inversion Hrun. subst bp. simpl in *.
    unfold attribute_value. simpl.
    repeat split.
    + exact Hid.
    + now rewrite (lookup_attribute_replace_eq _ _ _ _ Ha2).
    + now rewrite !replace_attribute_ids.
    + intros name Hc Hr. now rewrite !lookup_attribute_replace_ne.
    + discriminate.
    + intros _. rewrite lookup_attribute_replace_ne by discriminate. now rewrite Ecol.
Qed.

(** X1.  Every placement request of a call is for the Tesla Model 3
    blueprint with the role name [stationary]. *)
Theorem requests_carry_the_stationary_tesla lib ego_vehicle distance retries
    (s : state R W) :
  let run := spawn_vehicle_in_front_of_ego_vehicle lib ego_vehicle distance retries s in
  Forall
    (fun rq =>
       bp_id (req_blueprint rq) = "vehicle.tesla.model3" /\
       attribute_value "role_name" (req_blueprint rq) = Some "stationary")
    (new_requests s (snd run)).
Proof.
  intros run.
  destruct (spawn_cases lib ego_vehicle distance retries s)
    as (reqs & Hreq & _ & _ & Hcases).
  fold run in Hreq, Hcases. rewrite (new_requests_app _ _ _ Hreq).
  destruct Hcases as [(bp & Hbp & -> & _)|(e & _ & -> & _)]; [|constructor].
  destruct (configure_blueprint_ok _ _ _ Hbp) as (bp0 & _ & Hid & Hrole & _).
  apply Forall_lookup_2. intros n rq Hn.
  destruct (placements_lookup _ _ _ _ _ _ _ Hn) as (i & _ & -> & _). auto.
Qed.

(** X2.  The blueprint of the requests is the library's Tesla blueprint
    with two attributes set: it has the same attributes, those other than
    [color] and [role_name] are untouched, and its colour, when the blueprint
    has one, is one of the recommended values of the library's blueprint. *)
Theorem configured_blueprint_keeps_the_rest lib ego_vehicle distance retries
    (s : state R W) bp0 :
  let run := spawn_vehicle_in_front_of_ego_vehicle lib ego_vehicle distance retries s in
  List.find (fun b => String.eqb (bp_id b) "vehicle.tesla.model3") lib = Some bp0 ->
  Forall
    (fun rq =>
       List.map attr_id (bp_attributes (req_blueprint rq)) =
         List.map attr_id (bp_attributes bp0) /\
       (forall name, name <> "color" -> name <> "role_name" ->
          lookup_attribute name (bp_attributes (req_blueprint rq)) =
          lookup_attribute name (bp_attributes bp0)) /\
       match lookup_attribute "color" (bp_attributes bp0) with
       | Some a =>
           exists c, attribute_value "color" (req_blueprint rq) = Some c /\
                     In c (recommended_values a)
       | None => attribute_value "color" (req_blueprint rq) = None
       end)
    (new_requests s (snd run)).
Proof.
  intros run Hfind.
  destruct (spawn_cases lib ego_vehicle distance retries s)
    as (reqs & Hreq & _ & _ & Hcases).
  fold run in Hreq, Hcases. rewrite (new_requests_app _ _ _ Hreq).
  destruct Hcases as [(bp & Hbp & -> & _)|(e & _ & -> & _)]; [|constructor].
  destruct (configure_blueprint_ok _ _ _ Hbp)
    as (bp0' & Hfind' & _ & _ & Hids & Hother & Hcolor & Hnocolor).
  assert (bp0' = bp0) by congruence. subst bp0'.
  apply Forall_lookup_2. intros n rq Hn.
  destruct (placements_lookup _ _ _ _ _ _ _ Hn) as (i & _ & -> & _).
  repeat split; [assumption..|].
  destruct (lookup_attribute "color" (bp_attributes bp0)) as [a|]; auto.
Qed.

(** X3.  When the library has no Tesla Model 3 blueprint the call raises
    [IndexError] before any placement request, and the world is as before. *)
Theorem missing_blueprint_raises lib ego_vehicle distance retries (s : state R W) :
  let run := spawn_vehicle_in_front_of_ego_vehicle lib ego_vehicle distance retries s in
  List.find (fun b => String.eqb (bp_id b) "vehicle.tesla.model3") lib = None ->
  fst run = Raise IndexError /\
  new_requests s (snd run) = [] /\
  world (snd run) = world s /\
  stdout (snd run) = stdout s.
Proof.
  intros run Hfind.
  pose proof (spawn_run lib ego_vehicle distance retries s) as Hrun. cbv zeta in Hrun.
  assert (Hc : fst (configure_blueprint lib s) = Raise IndexError).
  { unfold configure_blueprint, find. rewrite Hfind. reflexivity. }
  rewrite Hc in Hrun. destruct Hrun as [g Hrun]. subst run. rewrite Hrun. simpl.
  repeat split. unfold new_requests. simpl. apply drop_all.
Qed.

(** X4.  When the Tesla blueprint has a [color] attribute without
    recommended values, [random.choice] has nothing to choose from: the call
    raises [ValueError] before any placement request. *)
Theorem no_recommended_colour_raises lib ego_vehicle distance retries
    (s : state R W) bp0 a :
  let run := spawn_vehicle_in_front_of_ego_vehicle lib ego_vehicle distance retries s in
  List.find (fun b => String.eqb (bp_id b) "vehicle.tesla.model3") lib = Some bp0 ->
  lookup_attribute "color" (bp_attributes bp0) = Some a ->
  recommended_values a = [] ->
  fst run = Raise ValueError /\
  new_requests s (snd run) = [] /\
  world (snd run) = world s.
Proof.
  intros run Hfind Hcolor Hempty.
  pose proof (spawn_run lib ego_vehicle distance retries s) as Hrun. cbv zeta in Hrun.
  assert (Hc : fst (configure_blueprint lib s) = Raise ValueError).
  { unfold configure_blueprint, find. rewrite Hfind.
    unfold bind at 1. unfold ret at 1. unfold bind at 1.
    unfold has_attribute, get_attribute. rewrite Hcolor.
    unfold bind at 1. unfold ret at 1. unfold bind at 1.
    unfold random_choice. rewrite Hempty. reflexivity. }
  rewrite Hc in Hrun. destruct Hrun as [g Hrun]. subst run. rewrite Hrun. simpl.
  repeat split. unfold new_requests. simpl. apply drop_all.
Qed.

(** *** What a call prints *)

Lemma retry_loop_stdout bp e f reference distance indices (s : state R W) :
  heap s !! e = Some (PTransform reference) ->
  heap s !! f = Some (PVector (rotation_forward_vector (rotation reference))) ->
  stdout (snd (for_each indices (attempt bp e f distance) s)) =
    stdout s ++ attempt_messages bp reference distance indices (world s).
Proof.
  revert s. induction indices as [|i rest IH]; intros s He Hf;
    cbn [for_each attempt_messages].
  - unfold ret. simpl. now rewrite app_nil_r.
  - erewrite bind_ok by (apply attempt_run; eassumption).
    destruct (try_spawn_actor bp (candidate reference distance i) (world s))
      as [[v|] w'] eqn:E; cbn [fst snd].
    + reflexivity.
    + set (s1 := mkState _ _ _ _ _).
      rewrite (IH s1); subst s1; simpl;
        [now rewrite app_nil_r | now apply lookup_old..].
Qed.

(** The attempt count of the message is the number of requests. *)
Lemma attempt_messages_count bp reference distance (k n : nat) w :
  let indices := List.map Z.of_nat (seq k n) in
  attempt_messages bp reference distance indices w =
    match accepted (placements bp reference distance indices w) with
    | Some v =>
        [MsgSpawned (actor_id v)
           (Z.of_nat k + Z.of_nat (length (placements bp reference distance indices w)))]
    | None => []
    end.
Proof.
  revert k w. induction n as [|n IH]; intros k w; [reflexivity|].
  cbn [seq List.map attempt_messages placements].
  destruct (try_spawn_actor bp (candidate reference distance (Z.of_nat k)) w)
    as [[v|] w'] eqn:E; cbn [fst snd].
  - unfold accepted. simpl. repeat f_equal; try lia.
  - specialize (IH (S k) w'). cbv zeta in IH. rewrite IH.
    unfold accepted. cbn [last length].
    destruct (placements bp reference distance (List.map Z.of_nat (seq (S k) n)) w')
      as [|rq reqs] eqn:Ep; [reflexivity|].
    change (last (_ :: rq :: reqs)) with (last (rq :: reqs)).
    destruct (last (rq :: reqs)) as [rq'|]; [|reflexivity].
    destruct (req_response rq'); [|reflexivity]. do 2 f_equal. simpl length. lia.
Qed.

Lemma spawn_stdout lib ego_vehicle distance retries (s : state R W) :
  let run := spawn_vehicle_in_front_of_ego_vehicle lib ego_vehicle distance retries s in
  stdout (snd run) =
    stdout s ++
    match fst run with
    | Ok (Some vehicle) =>
        [MsgSpawned (actor_id vehicle) (Z.of_nat (length (new_requests s (snd run))))]
    | Ok None => [MsgFailed]
    | Raise _ => []
    end.
Proof.
  intros run.
  destruct (spawn_cases lib ego_vehicle distance retries s)
    as (reqs & Hreq & _ & _ & Hcases).
  fold run in Hreq, Hcases. rewrite (new_requests_app _ _ _ Hreq).
  set (reference := actor_transform ego_vehicle (world s)) in *.
  destruct Hcases as [(bp & Hbp & Hreqs & Hres)|(e & He & _ & Hres)].
  - rewrite Hres. subst run. rewrite spawn_prefix. fold reference.
    set (s2 := mkState _ _ _ _ _).
    destruct (generator_only_configure_blueprint lib s) as [_ Hframe].
    destruct (Hframe s2 eq_refl) as [Ho _].
    destruct (generator_only_configure_blueprint lib s2) as [Hs2 _].
    destruct (configure_blueprint lib s2) as [o s3] eqn:E. simpl in Ho, Hs2.
    rewrite Hbp in Ho. subst o. rewrite (bind_ok _ _ _ _ _ E).
    assert (He3 : heap s3 !! length (heap s) = Some (PTransform reference)).
    { rewrite Hs2. subst s2. simpl. now apply list_lookup_middle. }
    assert (Hf3 : heap s3 !! S (length (heap s)) =
                  Some (PVector (rotation_forward_vector (rotation reference)))).
    { rewrite Hs2. subst s2. simpl. unfold reference_objects.
      change (heap s ++ [PTransform reference; ?v]) with
        (heap s ++ [PTransform reference] ++ [v]).
      rewrite app_assoc. apply list_lookup_middle. rewrite length_app. simpl. lia. }
    pose proof (retry_loop_stdout bp _ _ reference distance (range retries) s3 He3 Hf3)
      as Hout.
    destruct (retry_loop_run bp _ _ reference distance (range retries) s3 He3 Hf3)
      as [out Hrun].
    assert (Hw : world s3 = world s) by (rewrite Hs2; reflexivity).
    assert (Hstd : stdout s3 = stdout s) by (rewrite Hs2; reflexivity).
    rewrite Hw in Hrun, Hout. rewrite <- Hreqs in Hrun.
    unfold bind at 1. destruct (for_each _ _ s3) as [o' s4]. simpl in Hout.
    assert (Ho' : o' = Ok (accepted reqs)) by (inversion Hrun; reflexivity).
    subst o'. clear Hrun.
    unfold range in Hout. rewrite attempt_messages_count in Hout.
    fold (range retries) in Hout. rewrite <- Hreqs, Hstd in Hout.
    change (Z.of_nat 0 + Z.of_nat (length reqs)) with (Z.of_nat (length reqs)) in Hout.
    destruct (accepted reqs) as [v|].
    + unfold ret. simpl. exact Hout.
    + unfold print, bind, ret. simpl. rewrite Hout. now rewrite app_nil_r.
  - rewrite Hres.
    pose proof (spawn_run lib ego_vehicle distance retries s) as Hrun.
    cbv zeta in Hrun. rewrite He in Hrun. destruct Hrun as [g Hrun].
    subst run. rewrite Hrun. simpl. now rewrite app_nil_r.
Qed.

(** X5.  A call that returns prints exactly one line: on success the id of
    the vehicle it returns and the number of placement requests it took, on
    exhaustion the failure line.  A call that raises prints nothing. *)
Theorem call_prints_one_line lib ego_vehicle distance retries (s : state R W) :
  let run := spawn_vehicle_in_front_of_ego_vehicle lib ego_vehicle distance retries s in
  stdout (snd run) =
    stdout s ++
    match fst run with
    | Ok (Some vehicle) =>
        [MsgSpawned (actor_id vehicle) (Z.of_nat (length (new_requests s (snd run))))]
    | Ok None => [MsgFailed]
    | Raise _ => []
    end.
Proof. exact (spawn_stdout lib ego_vehicle distance retries s). Qed.

(** *** The retry budget *)

Lemma accepted_cons_refused (rq : request R) reqs a :
  req_response rq = None -> accepted (rq :: reqs) = Some a -> accepted reqs = Some a.
Proof.
  intros Hr. unfold accepted. destruct reqs as [|rq' reqs]; simpl.
  - rewrite Hr. discriminate.
  - trivial.
Qed.

Lemma placements_extend bp reference distance pre post w a :
  accepted (placements bp reference distance pre w) = Some a ->
  placements bp reference distance (pre ++ post) w =
  placements bp reference distance pre w.
Proof.
  revert w. induction pre as [|i rest IH]; intros w Hacc; [discriminate|].
  cbn [placements app] in *.
  destruct (try_spawn_actor bp (candidate reference distance i) w) as [[v|] w'] eqn:E;
    cbn [fst snd] in *; [reflexivity|].
  f_equal. apply IH. eapply accepted_cons_refused; [|exact Hacc]. reflexivity.
Qed.

Lemma range_prefix n m : n <= m -> exists rest, range m = range n ++ rest.
Proof.
  intros Hle. destruct (Z_le_gt_dec n 0) as [Hn|Hn].
  - rewrite (range_nonpositive _ Hn). eexists. reflexivity.
  - unfold range.
    replace (Z.to_nat m) with (Z.to_nat n + (Z.to_nat m - Z.to_nat n))%nat by lia.
    rewrite seq_app, map_app. eexists. reflexivity.
Qed.

(** X6.  A larger retry budget changes nothing for a call that succeeds:
    with any budget at least as large, the call from the same state makes
    the same placement requests, returns the same handle and leaves the
    same world. *)
Theorem larger_budget_same_success lib ego_vehicle distance retries retries'
    (s : state R W) a :
  let run := spawn_vehicle_in_front_of_ego_vehicle lib ego_vehicle distance retries s in
  let run' := spawn_vehicle_in_front_of_ego_vehicle lib ego_vehicle distance retries' s in
  retries <= retries' ->
  fst run = Ok (Some a) ->
  fst run' = Ok (Some a) /\
  new_requests s (snd run') = new_requests s (snd run) /\
  world (snd run') = world (snd run) /\
  stdout (snd run') = stdout (snd run).
Proof.
  intros run run' Hle Hres.
  pose proof (spawn_stdout lib ego_vehicle distance retries s) as Hout.
  pose proof (spawn_stdout lib ego_vehicle distance retries' s) as Hout'.
  cbv zeta in Hout, Hout'. fold run in Hout. fold run' in Hout'.
  destruct (spawn_cases lib ego_vehicle distance retries s)
    as (reqs & Hreq & Hworld & _ & Hcases).
  destruct (spawn_cases lib ego_vehicle distance retries' s)
    as (reqs' & Hreq' & Hworld' & _ & Hcases').
  fold run in Hreq, Hworld, Hcases. fold run' in Hreq', Hworld', Hcases'.
  rewrite (new_requests_app _ _ _ Hreq) in *.
  rewrite (new_requests_app _ _ _ Hreq') in *.
  destruct Hcases as [(bp & Hbp & Hreqs & Hr)|(e & _ & _ & Hr)]; [|congruence].
  destruct Hcases' as [(bp' & Hbp' & Hreqs' & Hr')|(e & He & _)]; [|congruence].
  assert (bp' = bp) by congruence. subst bp'.
  assert (Hacc : accepted reqs = Some a) by congruence.
  destruct (range_prefix _ _ Hle) as [rest Hrange].
  assert (Heq : reqs' = reqs).
  { rewrite Hreqs', Hrange, Hreqs. apply (placements_extend _ _ _ _ _ _ a).
    now rewrite <- Hreqs. }
  rewrite Heq in Hr', Hout', Hworld' |- *. clear Heq Hreqs'.
  rewrite Hacc in Hr'. rewrite Hr' in Hout'. rewrite Hres in Hout.
  repeat split; congruence.
Qed.

Lemma accepted_first_acceptable {contract : PlacementContract (R:=R) (W:=W)}
    bp reference distance indices w :
  accepted (placements bp reference distance indices w) =
  head (omap (fun i => fst (try_spawn_actor bp (candidate reference distance i) w))
          indices).
Proof.
  induction indices as [|i rest IH]; [reflexivity|].
  cbn [placements omap list_omap].
  destruct (fst (try_spawn_actor bp (candidate reference distance i) w))
    as [v|] eqn:E.
  - reflexivity.
  - rewrite (refusal_changes_nothing _ _ _ E). rewrite <- IH.
    unfold accepted. simpl.
    destruct (placements bp reference distance rest w); [reflexivity|reflexivity].
Qed.

(** X7.  Under the placement contract a refusal leaves the world as it was,
    so every attempt is judged in the world the call started in: the call
    returns the handle for the lowest of the candidates [0 .. retries-1]
    that the authority accepts in that world, and [None] when it accepts
    none of them. *)
Theorem returns_first_acceptable_candidate {contract : PlacementContract (R:=R) (W:=W)}
    lib ego_vehicle distance retries (s : state R W) bp :
  let run := spawn_vehicle_in_front_of_ego_vehicle lib ego_vehicle distance retries s in
  let reference := actor_transform ego_vehicle (world s) in
  fst (configure_blueprint lib s) = Ok bp ->
  fst run = Ok (first_acceptable bp reference distance (world s) retries).
Proof.
  intros run reference Hbp.
  destruct (spawn_cases lib ego_vehicle distance retries s)
    as (reqs & _ & _ & _ & Hcases).
  fold run reference in Hcases.
  destruct Hcases as [(bp' & Hbp' & Hreqs & Hres)|(e & He & _)]; [|congruence].
  assert (bp' = bp) by congruence. subst bp'.
  rewrite Hres, Hreqs. f_equal. apply accepted_first_acceptable.
Qed.

(** *** More on [get_actor_blueprints] *)

Lemma get_actor_blueprints_state filter generation (s : state R W) :
  let bps :=
    List.filter (blueprint_matches filter) (get_blueprint_library (world s)) in
  get_actor_blueprints filter generation s =
    (Ok (blueprints_of_generation bps generation),
     mkState (world s) (heap s) (rng s) (requests s)
       (stdout s ++ generation_warning bps generation)).
Proof.
  intros bps. unfold get_actor_blueprints, blueprints_of_generation, generation_warning.
  unfold get_world at 1. unfold bind at 1. fold bps.
  assert (Hs : s = mkState (world s) (heap s) (rng s) (requests s) (stdout s ++ []))
    by (rewrite app_nil_r; now destruct s).
  destruct (String.eqb (lower generation) "all"); cbn [orb];
    [unfold ret; now rewrite <- Hs|].
  destruct (Nat.eqb (length bps) 1); [unfold ret; now rewrite <- Hs|].
  unfold try_except, int_of_string.
  destruct (py_int generation) as [g|]; [|reflexivity].
  unfold ret at 1. unfold bind at 1.
  destruct (Z.eqb g 1 || Z.eqb g 2); [|reflexivity]. cbn [andb].
  pose proof (generation_comprehension_run g bps s) as Hrun.
  unfold generation_test in Hrun.
  destruct (forallb has_int_generation bps).
  - rewrite Hrun. now rewrite <- Hs.
  - destruct Hrun as [e ->]. reflexivity.
Qed.

Lemma filter_sublist {A : Type} (f : A -> bool) (l : list A) :
  sublist (List.filter f l) l.
Proof.
  induction l as [|a l IH]; simpl; [constructor|].
  destruct (f a); now constructor.
Qed.

Lemma Forall_of_sublist {A : Type} (P : A -> Prop) (k l : list A) :
  sublist k l -> Forall P l -> Forall P k.
Proof.
  induction 1 as [|a k l _ IH|a k l _ IH]; intros Hall.
  - constructor.
  - inversion Hall; subst. constructor; auto.
  - inversion Hall; subst. auto.
Qed.

Lemma blueprints_of_generation_sublist bps generation :
  sublist (blueprints_of_generation bps generation) bps.
Proof.
  unfold blueprints_of_generation.
  destruct (_ || _); [reflexivity|].
  destruct (py_int generation) as [g|]; [|apply sublist_nil_l].
  destruct (_ && _); [apply filter_sublist|apply sublist_nil_l].
Qed.

(** X8.  [get_actor_blueprints] only ever prints: the world, the heap, the
    random generator and the request log are as before.  It prints nothing,
    or the one warning line, and when it prints the warning it returns the
    empty list. *)
Theorem get_actor_blueprints_warns_and_returns_nothing filter generation
    (s : state R W) :
  let run := get_actor_blueprints filter generation s in
  world (snd run) = world s /\
  heap (snd run) = heap s /\
  rng (snd run) = rng s /\
  requests (snd run) = requests s /\
  (stdout (snd run) = stdout s \/
   stdout (snd run) = stdout s ++ [MsgGenerationNotValid] /\ fst run = Ok []).
Proof.
  intros run. subst run. rewrite get_actor_blueprints_state. simpl.
  repeat split.
  unfold generation_warning, blueprints_of_generation.
  destruct (_ || _); [left; apply app_nil_r|].
  destruct (py_int generation) as [g|]; [|right; split; reflexivity].
  destruct (_ && _); [left; apply app_nil_r|right; split; reflexivity].
Qed.

(** X9.  Whatever the filter and the generation, the blueprints returned are
    blueprints of the library that match the filter, in the order of the
    library and without repetition of an entry: the result is a sublist of
    the matching blueprints.  In particular it is empty when nothing
    matches. *)
Theorem get_actor_blueprints_returns_matching filter generation (s : state R W) :
  let bps :=
    List.filter (blueprint_matches filter) (get_blueprint_library (world s)) in
  exists result,
    fst (get_actor_blueprints filter generation s) = Ok result /\
    sublist result bps /\
    sublist result (get_blueprint_library (world s)) /\
    Forall (fun bp => blueprint_matches filter bp = true) result.
Proof.
  intros bps. rewrite get_actor_blueprints_state. fold bps.
  exists (blueprints_of_generation bps generation).
  pose proof (blueprints_of_generation_sublist bps generation) as Hsub.
  repeat split; [assumption| |].
  - etransitivity; [exact Hsub|apply filter_sublist].
  - eapply Forall_of_sublist; [exact Hsub|].
    apply List.Forall_forall. intros bp Hin. apply filter_In in Hin. tauto.
Qed.

Lemma ascii_lower_a c : ascii_lower c = "a"%char -> c = "a"%char \/ c = "A"%char.
Proof.
  destruct c as [[] [] [] [] [] [] [] []]; vm_compute; intros E;
    first [discriminate E | auto].
Qed.

Lemma ascii_lower_l c : ascii_lower c = "l"%char -> c = "l"%char \/ c = "L"%char.
Proof.
  destruct c as [[] [] [] [] [] [] [] []]; vm_compute; intros E;
    first [discriminate E | auto].
Qed.

(** A generation that is [all] in some letter case is not an integer. *)
Lemma all_is_not_an_integer generation :
  lower generation = "all" -> py_int generation = None.
Proof.
  destruct generation as [|c1 [|c2 [|c3 [|c4 rest]]]]; simpl; try discriminate.
  intros E. injection E as E1 E2 E3.
  destruct (ascii_lower_a _ E1) as [-> | ->];
    destruct (ascii_lower_l _ E2) as [-> | ->];
    destruct (ascii_lower_l _ E3) as [-> | ->]; reflexivity.
Qed.

(** X10.  For a generation that reads as the integer 1 or 2, and more or
    fewer than one matching blueprint, every blueprint returned has an
    integer [generation] attribute with that value. *)
Theorem returned_blueprints_have_the_generation filter generation g (s : state R W) :
  let bps :=
    List.filter (blueprint_matches filter) (get_blueprint_library (world s)) in
  py_int generation = Some g ->
  g = 1 \/ g = 2 ->
  length bps <> 1%nat ->
  exists result,
    fst (get_actor_blueprints filter generation s) = Ok result /\
    Forall (fun bp => has_generation g bp = true) result.
Proof.
  intros bps Hint Hg Hlen. rewrite get_actor_blueprints_state. fold bps.
  eexists. split; [reflexivity|].
  unfold blueprints_of_generation.
  destruct (String.eqb (lower generation) "all") eqn:Eall.
  - apply String.eqb_eq, all_is_not_an_integer in Eall. congruence.
  - apply Nat.eqb_neq in Hlen. rewrite Hlen, Hint. cbn [orb].
    destruct (_ && _); [|constructor].
    apply List.Forall_forall. intros bp Hin. apply filter_In in Hin. tauto.
Qed.

End MoreProperties.

(** ** Properties of [main] *)

Section MainProperties.
Context {R W Other : Type} `{Arith R} `{WorldAuthority R W} `{ClientLibrary}
  `{Simulation R W Other}.
Local Open Scope list_scope.

(** *** The blueprints of [--safe] *)

Lemma wheels_test_run bp (s : state R W) :
  if has_wheel_count bp
  then wheels_test bp s = (Ok (has_four_wheels bp), s)
  else exists e, wheels_test bp s = (Raise e, s) /\ (e = IndexError \/ e = TypeError).
Proof.
  unfold wheels_test, has_wheel_count, has_four_wheels, int_attribute, get_attribute,
    int_of_attribute.
  destruct (lookup_attribute "number_of_wheels" (bp_attributes bp)) as [a|];
    [|eexists; split; [reflexivity|auto]].
  cbn. destruct (attr_type a); cbn;
    try (eexists; split; [reflexivity|auto]). reflexivity.
Qed.

Lemma wheels_comprehension_run bps (s : state R W) :
  if forallb has_wheel_count bps
  then list_comprehension wheels_test bps s = (Ok (List.filter has_four_wheels bps), s)
  else exists e,
         list_comprehension wheels_test bps s = (Raise e, s) /\
         (e = IndexError \/ e = TypeError).
Proof.
  induction bps as [|bp rest IH]; cbn [forallb list_comprehension List.filter].
  - reflexivity.
  - pose proof (wheels_test_run bp s) as Hbp.
    destruct (has_wheel_count bp); cbn [andb].
    + rewrite (bind_ok _ _ _ _ _ Hbp).
      destruct (forallb has_wheel_count rest).
      * rewrite (bind_ok _ _ _ _ _ IH). unfold ret.
        now destruct (has_four_wheels bp).
      * destruct IH as (e & IH & He). exists e.
        now rewrite (bind_raise _ _ _ _ _ IH).
    + destruct Hbp as (e & Hbp & He). exists e.
      now rewrite (bind_raise _ _ _ _ _ Hbp).
Qed.

Lemma filter_filter {A : Type} (f g : A -> bool) (l : list A) :
  List.filter f (List.filter g l) = List.filter (fun x => g x && f x) l.
Proof.
  induction l as [|a l IH]; simpl; [reflexivity|].
  destruct (g a); simpl; [destruct (f a)|]; now rewrite IH.
Qed.

Lemma safe_blueprints_run bps (s : state R W) :
  if forallb has_wheel_count bps
  then safe_blueprints bps s = (Ok (List.filter is_safe bps), s)
  else exists e,
         safe_blueprints bps s = (Raise e, s) /\ (e = IndexError \/ e = TypeError).
Proof.
  unfold safe_blueprints. pose proof (wheels_comprehension_run bps s) as Hrun.
  unfold wheels_test in Hrun. destruct (forallb has_wheel_count bps).
  - rewrite (bind_ok _ _ _ _ _ Hrun). unfold ret. f_equal. f_equal.
    rewrite !filter_filter. apply filter_ext. intros bp.
    unfold is_safe, unsafe_models, has_four_wheels. cbn [forallb].
    rewrite andb_true_r, !andb_assoc. reflexivity.
  - destruct Hrun as (e & Hrun & He). exists e.
    now rewrite (bind_raise _ _ _ _ _ Hrun).
Qed.

Lemma is_safe_has_wheel_count bp : is_safe bp = true -> has_wheel_count bp = true.
Proof.
  unfold is_safe, has_wheel_count.
  destruct (int_attribute "number_of_wheels" bp); [reflexivity|discriminate].
Qed.

Lemma safe_all_have_wheel_count bps :
  forallb has_wheel_count (List.filter is_safe bps) = true.
Proof.
  apply forallb_forall. intros bp Hin. apply filter_In in Hin.
  apply is_safe_has_wheel_count. tauto.
Qed.

Lemma filter_idempotent {A : Type} (f : A -> bool) (l : list A) :
  List.filter f (List.filter f l) = List.filter f l.
Proof.
  rewrite filter_filter. apply filter_ext. intros a. now destruct (f a).
Qed.

(** X11.  When every blueprint has an integer [number_of_wheels]
    attribute, the eight comprehensions of [--safe] amount to one filter:
    they keep, in order, the blueprints with four wheels whose id ends in
    none of the seven excluded model names, and change nothing. *)
Theorem safe_keeps_four_wheeled_models bps (s : state R W) :
  forallb has_wheel_count bps = true ->
  safe_blueprints bps s = (Ok (List.filter is_safe bps), s).
Proof.
  intros Hall. pose proof (safe_blueprints_run bps s) as Hrun.
  now rewrite Hall in Hrun.
Qed.

(** X12.  When some blueprint has no integer [number_of_wheels] attribute,
    the comprehension of line 149 raises, with [IndexError] or [TypeError]:
    no [try] surrounds it, unlike the one of [get_actor_blueprints]. *)
Theorem safe_raises_without_wheel_count bps (s : state R W) :
  forallb has_wheel_count bps = false ->
  exists e,
    safe_blueprints bps s = (Raise e, s) /\ (e = IndexError \/ e = TypeError).
Proof.
  intros Hall. pose proof (safe_blueprints_run bps s) as Hrun.
  now rewrite Hall in Hrun.
Qed.

(** X13.  The blueprints of [--safe] are a fixed point of it: applied to
    its own result, it returns that result and does not raise. *)
Theorem safe_is_idempotent bps result (s s' : state R W) :
  safe_blueprints bps s = (Ok result, s') ->
  safe_blueprints result s' = (Ok result, s').
Proof.
  intros Hrun. pose proof (safe_blueprints_run bps s) as Hfirst.
  destruct (forallb has_wheel_count bps).
  - rewrite Hfirst in Hrun. inversion Hrun. subst.
    pose proof (safe_blueprints_run (List.filter is_safe bps) s') as Hagain.
    rewrite safe_all_have_wheel_count in Hagain.
    now rewrite filter_idempotent in Hagain.
  - destruct Hfirst as (e & Hfirst & _). congruence.
Qed.

(** *** Running [main] *)

Lemma mbind_returned {A B : Type} (m : MM A) (k : A -> MM B)
    (ms ms' : main_state R W Other) (a : A) :
  m ms = (Returned a, ms') -> mbind m k ms = k a ms'.
Proof. intros E. unfold mbind. now rewrite E. Qed.

Lemma mbind_raised {A B : Type} (m : MM A) (k : A -> MM B)
    (ms ms' : main_state R W Other) (e : main_exn) :
  m ms = (Raised e, ms') -> mbind m k ms = (Raised e, ms').
Proof. intros E. unfold mbind. now rewrite E. Qed.

Lemma configure_settings_run args (ms : main_state R W Other) :
  let settings := get_settings (world (base ms)) in
  configure_settings args ms =
    (Returned (becomes_master args settings),
     mkMainState (with_world (apply_settings (applied_settings args settings)) (base ms))
       (vehicles_list ms)
       (console ms ++
        (if asynch args then [PrintedAsynchronousNotice] else []) ++
        [AppliedSettings (applied_settings args settings)])).
Proof.
  intros settings.
  unfold configure_settings, world_get_settings, world_apply_settings, on_world, emit,
    applied_settings, becomes_master, with_world.
  unfold mbind at 1. fold settings.
  destruct (asynch args); [|destruct (synchronous_mode settings)];
    simpl; unfold mbind, mret; simpl; rewrite <- ?app_assoc; reflexivity.
Qed.

Lemma idle_loop_run args master n (ms : main_state R W Other) :
  idle_loop args master n ms =
    (Raised KeyboardInterrupt,
     mkMainState (with_world (Nat.iter n (idle_round args master)) (base ms))
       (vehicles_list ms)
       (console ms ++ repeat (idle_event args master) n)).
Proof.
  revert ms. induction n as [|n IH]; intros ms; cbn [idle_loop].
  - unfold mraise, with_world. simpl. rewrite app_nil_r. now destruct ms as [[] ? ?].
  - assert (Hround :
      (if negb (asynch args) && master then world_tick else world_wait_for_tick) ms =
      (Returned tt,
       mkMainState (with_world (idle_round args master) (base ms)) (vehicles_list ms)
         (console ms ++ [idle_event args master]))).
    { unfold idle_round, idle_event.
      destruct (negb (asynch args) && master); reflexivity. }
    rewrite (mbind_returned _ _ _ _ _ Hround), IH. simpl. f_equal.
    unfold with_world. simpl. rewrite <- app_assoc. simpl.
    do 2 f_equal. f_equal. apply Nat.iter_swap.
Qed.

Lemma destroy_vehicles_run (ms : main_state R W Other) :
  destroy_vehicles ms =
    (Returned tt,
     mkMainState (with_world (destroy_actors (vehicles_list ms)) (base ms))
       (vehicles_list ms)
       (console ms ++ cleanup_events (vehicles_list ms))).
Proof.
  unfold destroy_vehicles, get_vehicles_list, client_destroy, on_world, emit, mbind,
    with_world, cleanup_events.
  simpl. rewrite <- !app_assoc. reflexivity.
Qed.

Lemma call_run {A : Type} (m : M A) (ms : main_state R W Other) o s' :
  m (base ms) = (o, s') ->
  call m ms =
    (match o with Ok a => Returned a | Raise e => Raised (Exn e) end,
     mkMainState s' (vehicles_list ms)
       (console ms ++ List.map Printed (drop (length (stdout (base ms))) (stdout s')))).
Proof. intros E. unfold call. now rewrite E. Qed.

Lemma main_locate_and_spawn_run (s : state R W) :
  main_locate_and_spawn s =
    match find_ego_vehicle (world s) with
    | None =>
        (Ok None,
         mkState (world s) (heap s) (rng s) (requests s) (stdout s ++ [MsgEgoNotFound]))
    | Some ego_vehicle =>
        let run :=
          spawn_vehicle_in_front_of_ego_vehicle (get_blueprint_library (world s))
            ego_vehicle default_distance default_retries s in
        match fst run with
        | Ok (Some v) =>
            (Ok (Some [actor_id v]),
             mkState (world (snd run)) (heap (snd run)) (rng (snd run))
               (requests (snd run))
               (stdout (snd run) ++ [MsgSpawnedInFront (actor_id v)]))
        | Ok None => (Raise AttributeError, snd run)
        | Raise e => (Raise e, snd run)
        end
    end.
Proof.
  unfold main_locate_and_spawn, find_ego_vehicle.
  unfold get_world at 1. unfold bind at 1.
  destruct (List.find _ _) as [ego_vehicle|]; [|reflexivity].
  unfold get_world at 1. unfold bind at 1. cbv zeta.
  destruct (spawn_vehicle_in_front_of_ego_vehicle _ _ _ _ s) as [[[v|]|e] s'] eqn:E.
  - rewrite (bind_ok _ _ _ _ _ E). reflexivity.
  - rewrite (bind_ok _ _ _ _ _ E). reflexivity.
  - rewrite (bind_raise _ _ _ _ _ E). reflexivity.
Qed.

Lemma try_finally_returned {A B : Type} (m : MM A) (k : A -> MM B) (cleanup : MM unit)
    (ms ms' : main_state R W Other) (a : A) :
  m ms = (Returned a, ms') ->
  try_finally (mbind m k) cleanup ms = try_finally (k a) cleanup ms'.
Proof. intros E. unfold try_finally. now rewrite (mbind_returned _ _ _ _ _ E). Qed.

Lemma try_finally_raised {A B : Type} (m : MM A) (k : A -> MM B) (cleanup : MM unit)
    (ms ms' : main_state R W Other) (e : main_exn) :
  m ms = (Raised e, ms') ->
  try_finally (mbind m k) cleanup ms = try_finally (mraise e) cleanup ms'.
Proof. intros E. unfold try_finally. now rewrite (mbind_raised _ _ _ _ _ E). Qed.

Lemma main_tail_run args n master (s2 : state R W) (c : list (main_event R Other)) :
  let located := main_locate_and_spawn s2 in
  let s3 := snd located in
  let ev3 := List.map Printed (drop (length (stdout s2)) (stdout s3)) in
  try_finally
    (mbind (call main_locate_and_spawn)
       (fun spawned =>
          match spawned with
          | None => mret tt
          | Some l => mbind (set_vehicles_list l) (fun _ => idle_loop args master n)
          end))
    destroy_vehicles
    (mkMainState s2 [] c) =
  match fst located with
  | Raise e =>
      (Raised (Exn e),
       mkMainState (with_world (destroy_actors []) s3) []
         (c ++ ev3 ++ cleanup_events []))
  | Ok None =>
      (Returned tt,
       mkMainState (with_world (destroy_actors []) s3) []
         (c ++ ev3 ++ cleanup_events []))
  | Ok (Some l) =>
      (Raised KeyboardInterrupt,
       mkMainState
         (with_world (destroy_actors l)
            (with_world (Nat.iter n (idle_round args master)) s3))
         l
         (c ++ ev3 ++ repeat (idle_event args master) n ++ cleanup_events l))
  end.
Proof.
  intros located s3 ev3. subst s3 ev3 located.
  destruct (main_locate_and_spawn s2) as [o s3] eqn:E.
  pose proof (call_run main_locate_and_spawn (mkMainState s2 [] c) o s3 E) as Hcall.
  simpl in Hcall. simpl.
  destruct o as [[l|]|e].
  - rewrite (try_finally_returned _ _ _ _ _ _ Hcall).
    unfold try_finally, set_vehicles_list. unfold mbind at 1.
    rewrite idle_loop_run, destroy_vehicles_run. simpl.
    now rewrite <- !app_assoc.
  - rewrite (try_finally_returned _ _ _ _ _ _ Hcall).
    unfold try_finally, mret. rewrite destroy_vehicles_run. simpl.
    now rewrite <- !app_assoc.
  - rewrite (try_finally_raised _ _ _ _ _ _ Hcall).
    unfold try_finally, mraise. rewrite destroy_vehicles_run. simpl.
    now rewrite <- !app_assoc.
Qed.

Lemma safe_blueprints_state bps (s : state R W) : snd (safe_blueprints bps s) = s.
Proof.
  pose proof (safe_blueprints_run bps s) as Hrun.
  destruct (forallb has_wheel_count bps).
  - now rewrite Hrun.
  - destruct Hrun as (e & -> & _). reflexivity.
Qed.

(** Every run of [main], in one equation: [--safe] may raise; else lines
    161-174 raise, return without a vehicle, or return with one, and then
    the idle loop runs until the interrupt.  The [finally] block ends each
    of them. *)
Lemma main_outcomes args n (ms : main_state R W Other) :
  let s2 := prepared args (base ms) in
  let opening := opening_events args (base ms) in
  let master := becomes_master args (get_settings (world (base ms))) in
  let located := main_locate_and_spawn s2 in
  let s3 := snd located in
  let lines := List.map Printed (drop (length (stdout s2)) (stdout s3)) in
  main args n ms =
    match (if safe args
           then fst (safe_blueprints (listed_blueprints args (base ms)) s2)
           else Ok (listed_blueprints args (base ms))) with
    | Raise e =>
        (Raised (Exn e),
         mkMainState (with_world (destroy_actors []) s2) []
           (console ms ++ opening ++ cleanup_events []))
    | Ok _ =>
        match fst located with
        | Raise e =>
            (Raised (Exn e),
             mkMainState (with_world (destroy_actors []) s3) []
               (console ms ++ opening ++ lines ++ cleanup_events []))
        | Ok None =>
            (Returned tt,
             mkMainState (with_world (destroy_actors []) s3) []
               (console ms ++ opening ++ lines ++ cleanup_events []))
        | Ok (Some l) =>
            (Raised KeyboardInterrupt,
             mkMainState
               (with_world (destroy_actors l)
                  (with_world (Nat.iter n (idle_round args master)) s3))
               l
               (console ms ++ opening ++ lines ++
                repeat (idle_event args master) n ++ cleanup_events l))
        end
    end.
Proof.
  intros s2 opening master located s3 lines.
  unfold main. unfold mbind at 1. unfold set_vehicles_list at 1.
  set (ms0 := mkMainState (base ms) [] (console ms)).
  pose proof (configure_settings_run args ms0) as Hconf. cbv zeta in Hconf.
  change (base ms0) with (base ms) in Hconf.
  change (console ms0) with (console ms) in Hconf.
  change (vehicles_list ms0) with (@nil Z) in Hconf.
  fold master in Hconf.
  rewrite (try_finally_returned _ _ _ _ _ _ Hconf). clear Hconf.
  set (ms1 := mkMainState _ [] _).
  assert (Hgab : call (get_actor_blueprints (filterv args) (generationv args)) ms1 =
                 (Returned (listed_blueprints args (base ms)),
                  mkMainState s2 [] (console ms ++ opening))).
  { erewrite call_run by apply get_actor_blueprints_state.
    subst ms1. cbn [base vehicles_list console].
    unfold listed_blueprints. f_equal. unfold with_world.
    cbn [world heap rng requests stdout].
    rewrite drop_app_length. subst s2 opening. unfold prepared, opening_events.
    rewrite <- !app_assoc. reflexivity. }
  rewrite (try_finally_returned _ _ _ _ _ _ Hgab). clear Hgab.
  set (c2 := console ms ++ opening).
  set (ms2 := mkMainState s2 [] c2).
  pose proof (main_tail_run args n master s2 c2) as Htail. cbv zeta in Htail.
  fold located s3 lines ms2 in Htail.
  assert (Hc2 : forall rest, c2 ++ rest = console ms ++ opening ++ rest).
  { intros rest. subst c2. now rewrite <- app_assoc. }
  destruct (safe args).
  - pose proof (safe_blueprints_state (listed_blueprints args (base ms)) s2) as Hstate.
    destruct (safe_blueprints (listed_blueprints args (base ms)) s2) as [o s'] eqn:Esafe.
    cbn [fst snd] in *. subst s'.
    assert (Hcall : call (safe_blueprints (listed_blueprints args (base ms))) ms2 =
                    (match o with Ok a => Returned a | Raise e => Raised (Exn e) end, ms2)).
    { erewrite call_run by exact Esafe. subst ms2. cbn [base vehicles_list console].
      rewrite drop_all. cbn [List.map]. rewrite app_nil_r. reflexivity. }
    destruct o as [bl|e].
    + rewrite (try_finally_returned _ _ _ _ _ _ Hcall). cbv beta. rewrite Htail.
      destruct (fst located) as [[l|]|e]; rewrite Hc2; reflexivity.
    + rewrite (try_finally_raised _ _ _ _ _ _ Hcall).
      unfold try_finally, mraise. rewrite destroy_vehicles_run. subst ms2.
      cbn [base vehicles_list console]. now rewrite Hc2.
  - assert (Hret : mret (A:=list ActorBlueprint) (listed_blueprints args (base ms)) ms2 =
                   (Returned (listed_blueprints args (base ms)), ms2))
      by reflexivity.
    rewrite (try_finally_returned _ _ _ _ _ _ Hret). cbv beta. rewrite Htail.
    destruct (fst located) as [[l|]|e]; rewrite Hc2; reflexivity.
Qed.

(** What lines 161-174 add to the request log and to the world. *)
Lemma located_summary (s : state R W) :
  let located := main_locate_and_spawn s in
  exists reqs,
    requests (snd located) = requests s ++ reqs /\
    world (snd located) = submit reqs (world s) /\
    match fst located with
    | Ok (Some l) => exists v, accepted reqs = Some v /\ l = [actor_id v]
    | _ => accepted reqs = None
    end.
Proof.
  intros located. subst located. rewrite main_locate_and_spawn_run.
  destruct (find_ego_vehicle (world s)) as [ego_vehicle|].
  - cbv zeta.
    destruct (spawn_cases (get_blueprint_library (world s)) ego_vehicle
                default_distance default_retries s)
      as (reqs & Hreq & Hworld & _ & Hcases).
    exists reqs.
    destruct Hcases as [(bp & _ & _ & Hres)|(e & _ & -> & Hres)]; rewrite Hres.
    + destruct (accepted reqs) as [v|] eqn:Hacc; simpl; eauto.
    + simpl. auto.
  - exists []. simpl. rewrite app_nil_r. auto.
Qed.

(** What lines 161-174 print. *)
Lemma located_lines (s : state R W) :
  drop (length (stdout s)) (stdout (snd (main_locate_and_spawn s))) =
    match find_ego_vehicle (world s) with
    | None => [MsgEgoNotFound]
    | Some ego_vehicle =>
        let run :=
          spawn_vehicle_in_front_of_ego_vehicle (get_blueprint_library (world s))
            ego_vehicle default_distance default_retries s in
        match fst run with
        | Ok (Some v) =>
            [MsgSpawned (actor_id v) (Z.of_nat (length (new_requests s (snd run))));
             MsgSpawnedInFront (actor_id v)]
        | Ok None => [MsgFailed]
        | Raise _ => []
        end
    end.
Proof.
  rewrite main_locate_and_spawn_run.
  destruct (find_ego_vehicle (world s)) as [ego_vehicle|];
    [|simpl; apply drop_app_length].
  cbv zeta.
  pose proof (spawn_stdout (get_blueprint_library (world s)) ego_vehicle
                default_distance default_retries s) as Hout.
  cbv zeta in Hout.
  destruct (fst (spawn_vehicle_in_front_of_ego_vehicle _ _ _ _ s)) as [[v|]|e];
    simpl; rewrite Hout; rewrite <- ?app_assoc; rewrite drop_app_length;
    rewrite ?app_nil_r; reflexivity.
Qed.

Lemma no_destroy_in_lines (lines : list message) :
  List.filter is_destroyed (List.map (Printed (R:=R) (Other:=Other)) lines) = [].
Proof. induction lines; simpl; auto. Qed.

Lemma no_destroy_in_rounds args master n :
  List.filter is_destroyed (repeat (idle_event (R:=R) (Other:=Other) args master) n) = [].
Proof.
  induction n as [|n IH]; simpl; [reflexivity|].
  unfold idle_event at 1. destruct (negb (asynch args) && master); simpl; exact IH.
Qed.

Lemma no_destroy_before_settings args (settings : WorldSettings R Other) :
  List.filter is_destroyed
    ((if asynch args then [PrintedAsynchronousNotice] else []) ++
     [AppliedSettings (applied_settings args settings)]) = [].
Proof. destruct (asynch args); reflexivity. Qed.

Lemma new_events_app (ms ms' : main_state R W Other) events :
  console ms' = console ms ++ events -> new_events ms ms' = events.
Proof. intros E. unfold new_events. rewrite E. apply drop_app_length. Qed.

Lemma new_requests_with_world (f : W -> W) (s0 s : state R W) :
  new_requests s0 (with_world f s) = new_requests s0 s.
Proof. reflexivity. Qed.

Lemma no_destroy_in_opening args (s : state R W) :
  List.filter is_destroyed (opening_events (Other:=Other) args s) = [].
Proof.
  unfold opening_events. rewrite app_assoc, List.filter_app.
  now rewrite no_destroy_before_settings, no_destroy_in_lines.
Qed.

(** X14.  Whatever the arguments, the world and the moment of the
    interrupt, [main] ends with its [finally] block, once: the last events
    are the destroy batch for [vehicles_list] and the pause, and nothing was
    destroyed before.  The batch holds the id of the vehicle whose placement
    was accepted, and is empty when none was. *)
Theorem main_destroys_what_it_spawned args n (ms : main_state R W Other) :
  let run := main args n ms in
  let batch := vehicles_list (snd run) in
  exists events,
    new_events ms (snd run) = events ++ cleanup_events batch /\
    List.filter is_destroyed events = [] /\
    batch =
      match accepted (new_requests (base ms) (base (snd run))) with
      | Some v => [actor_id v]
      | None => []
      end.
Proof.
  intros run batch. subst batch run.
  rewrite main_outcomes. cbv zeta.
  set (s2 := prepared args (base ms)).
  set (opening := opening_events args (base ms)).
  set (lines := List.map Printed _).
  set (rounds := repeat _ n).
  assert (Hopen : List.filter is_destroyed opening = [])
    by apply no_destroy_in_opening.
  assert (Hlines : List.filter is_destroyed lines = [])
    by apply no_destroy_in_lines.
  assert (Hrounds : List.filter is_destroyed rounds = [])
    by apply no_destroy_in_rounds.
  destruct (located_summary s2) as (reqs & Hreq & _ & Hres). cbv zeta in Hreq, Hres.
  assert (Hnew : new_requests (base ms) (snd (main_locate_and_spawn s2)) = reqs)
    by (apply new_requests_app; exact Hreq).
  clearbody opening lines rounds.
  destruct (if safe args then _ else _) as [bl|e].
  - destruct (fst (main_locate_and_spawn s2)) as [[l|]|e];
      cbn [fst snd vehicles_list base console].
    + destruct Hres as (v & Hacc & ->).
      exists (opening ++ lines ++ rounds). split; [|split].
      * apply new_events_app. cbn [console]. now rewrite <- !app_assoc.
      * now rewrite !List.filter_app, Hopen, Hlines, Hrounds.
      * now rewrite !new_requests_with_world, Hnew, Hacc.
    + exists (opening ++ lines). split; [|split].
      * apply new_events_app. cbn [console]. now rewrite <- !app_assoc.
      * now rewrite !List.filter_app, Hopen, Hlines.
      * now rewrite !new_requests_with_world, Hnew, Hres.
    + exists (opening ++ lines). split; [|split].
      * apply new_events_app. cbn [console]. now rewrite <- !app_assoc.
      * now rewrite !List.filter_app, Hopen, Hlines.
      * now rewrite !new_requests_with_world, Hnew, Hres.
  - cbn [fst snd vehicles_list base console].
    exists opening. split; [|split].
    + now apply new_events_app.
    + exact Hopen.
    + rewrite new_requests_with_world. unfold new_requests. subst s2. unfold prepared.
      cbn [requests]. now rewrite drop_all.
Qed.

Lemma program_run args n (ms : main_state R W Other) :
  let run := main args n ms in
  program args n ms =
    (match fst run with
     | Raised KeyboardInterrupt => Returned tt
     | o => o
     end,
     mkMainState (base (snd run)) (vehicles_list (snd run))
       (console (snd run) ++ [PrintedDone])).
Proof.
  intros run. subst run. unfold program, try_finally, except_keyboard_interrupt, emit.
  destruct (main args n ms) as [[[]|[e|]] ms']; reflexivity.
Qed.

Lemma applied_once_in_lines (lines : list message) :
  List.filter is_applied_settings (List.map (Printed (R:=R) (Other:=Other)) lines) = [].
Proof. induction lines; simpl; auto. Qed.

Lemma applied_once_in_rounds args master n :
  List.filter is_applied_settings
    (repeat (idle_event (R:=R) (Other:=Other) args master) n) = [].
Proof.
  induction n as [|n IH]; simpl; [reflexivity|].
  unfold idle_event at 1. destruct (negb (asynch args) && master); simpl; exact IH.
Qed.

(** X15.  In every run [main] applies settings to the world exactly once,
    at its start, and never again: what it switched on it does not switch
    off, also when it ends with an error or an interrupt.  The call is the
    first event of the run, after the notice of [--asynch] only, and the
    world it acts on is the one [main] found: the placement requests, the
    rounds of the idle loop and the destroy batch all come after it.  The
    settings it applies are those it found, with synchronous mode on and the
    fixed time step set when it is not run with [--asynch] and the world was
    not synchronous yet. *)
Theorem settings_applied_once_and_not_restored args n (ms : main_state R W Other) :
  let run := main args n ms in
  let found := get_settings (world (base ms)) in
  let applied := applied_settings args found in
  let rounds := match vehicles_list (snd run) with [] => 0%nat | _ => n end in
  (exists rest,
     new_events ms (snd run) =
       (if asynch args then [PrintedAsynchronousNotice] else []) ++
       AppliedSettings applied :: rest /\
     List.filter is_applied_settings rest = []) /\
  world (base (snd run)) =
    destroy_actors (vehicles_list (snd run))
      (Nat.iter rounds (idle_round args (becomes_master args found))
         (submit (new_requests (base ms) (base (snd run)))
            (apply_settings applied (world (base ms))))) /\
  other_settings applied = other_settings found /\
  (if asynch args then applied = found else synchronous_mode applied = true) /\
  (if synchronous_mode found then applied = found
   else if asynch args then applied = found
   else fixed_delta_seconds applied = Some float_0_05).
Proof.
  intros run found applied rounds. subst rounds run.
  assert (Hsettings :
            other_settings applied = other_settings found /\
            (if asynch args then applied = found else synchronous_mode applied = true) /\
            (if synchronous_mode found then applied = found
             else if asynch args then applied = found
             else fixed_delta_seconds applied = Some float_0_05)).
  { subst applied. unfold applied_settings, becomes_master.
    destruct (asynch args), (synchronous_mode found) eqn:E; simpl; auto. }
  rewrite main_outcomes. cbv zeta.
  set (s2 := prepared args (base ms)).
  assert (Hw2 : world s2 = apply_settings applied (world (base ms))) by reflexivity.
  assert (Hr2 : requests s2 = requests (base ms)) by reflexivity.
  unfold opening_events. fold found applied.
  set (notice := if asynch args then [PrintedAsynchronousNotice] else []).
  set (warning := List.map Printed (generation_warning _ _)).
  set (lines := List.map Printed (drop _ _)).
  set (idle := repeat _ n).
  assert (Hwarning : List.filter is_applied_settings warning = [])
    by apply applied_once_in_lines.
  assert (Hlines : List.filter is_applied_settings lines = [])
    by apply applied_once_in_lines.
  assert (Hidle : List.filter is_applied_settings idle = [])
    by apply applied_once_in_rounds.
  destruct (located_summary s2) as (reqs & Hreq & Hworld & Hres).
  cbv zeta in Hreq, Hworld, Hres. rewrite Hr2 in Hreq.
  assert (Hnew : new_requests (base ms) (snd (main_locate_and_spawn s2)) = reqs)
    by (apply new_requests_app; exact Hreq).
  clearbody notice warning lines idle.
  destruct (if safe args then _ else _) as [bl|e].
  - destruct (fst (main_locate_and_spawn s2)) as [[l|]|e];
      cbn [fst snd vehicles_list base console].
    + destruct Hres as (v & _ & ->). split; [|split; [|exact Hsettings]].
      * exists (warning ++ lines ++ idle ++ cleanup_events [actor_id v]). split.
        -- apply new_events_app. cbn [console]. now rewrite <- !app_assoc.
        -- now rewrite !List.filter_app, Hwarning, Hlines, Hidle.
      * rewrite !new_requests_with_world, Hnew. unfold with_world. cbn [world].
        now rewrite Hworld, Hw2.
    + split; [|split; [|exact Hsettings]].
      * exists (warning ++ lines ++ cleanup_events []). split.
        -- apply new_events_app. cbn [console]. now rewrite <- !app_assoc.
        -- now rewrite !List.filter_app, Hwarning, Hlines.
      * rewrite !new_requests_with_world, Hnew. unfold with_world. cbn [world].
        now rewrite Hworld, Hw2.
    + split; [|split; [|exact Hsettings]].
      * exists (warning ++ lines ++ cleanup_events []). split.
        -- apply new_events_app. cbn [console]. now rewrite <- !app_assoc.
        -- now rewrite !List.filter_app, Hwarning, Hlines.
      * rewrite !new_requests_with_world, Hnew. unfold with_world. cbn [world].
        now rewrite Hworld, Hw2.
  - cbn [fst snd vehicles_list base console].
    split; [|split; [|exact Hsettings]].
    + exists (warning ++ cleanup_events []). split.
      * apply new_events_app. cbn [console]. now rewrite <- !app_assoc.
      * now rewrite !List.filter_app, Hwarning.
    + rewrite new_requests_with_world. unfold new_requests. rewrite Hr2, drop_all.
      unfold with_world. cbn [world]. now rewrite Hw2.
Qed.

(** *** The ways the program ends *)

Lemma safe_raises_early bps (s : state R W) :
  forallb has_wheel_count bps = false ->
  exists e, safe_blueprints bps s = (Raise e, s) /\ (e = IndexError \/ e = TypeError).
Proof.
  intros Hall. pose proof (safe_blueprints_run bps s) as Hrun.
  now rewrite Hall in Hrun.
Qed.

Lemma program_events args n (ms : main_state R W Other) events :
  console (snd (main args n ms)) = console ms ++ events ->
  new_events ms (snd (program args n ms)) = events ++ [PrintedDone].
Proof.
  intros E. rewrite program_run. cbv zeta. simpl.
  apply new_events_app. rewrite E. now rewrite <- app_assoc.
Qed.

(** X16.  Without an ego vehicle the program prints that it found none and
    returns: no placement request, no round of the idle loop, an empty
    destroy batch.  The settings were applied all the same. *)
Theorem no_ego_vehicle_nothing_spawned args n (ms : main_state R W Other) :
  let s2 := prepared args (base ms) in
  let run := program args n ms in
  safe args = false ->
  find_ego_vehicle (world s2) = None ->
  fst run = Returned tt /\
  new_requests (base ms) (base (snd run)) = [] /\
  new_events ms (snd run) =
    opening_events args (base ms) ++ [Printed MsgEgoNotFound] ++
    cleanup_events [] ++ [PrintedDone].
Proof.
  intros s2 run Hsafe Hego. subst run.
  pose proof (main_outcomes args n ms) as Hmain. cbv zeta in Hmain.
  fold s2 in Hmain. rewrite Hsafe in Hmain. cbv iota in Hmain.
  pose proof (located_lines s2) as Hlines. rewrite Hego in Hlines.
  pose proof (main_locate_and_spawn_run s2) as Hrun. rewrite Hego in Hrun.
  rewrite Hrun in Hmain. cbn [fst snd] in Hmain. rewrite Hrun in Hlines.
  cbn [snd] in Hlines. rewrite Hlines in Hmain.
  split; [|split].
  - rewrite program_run. cbv zeta. now rewrite Hmain.
  - rewrite program_run. cbv zeta. rewrite Hmain. simpl.
    unfold new_requests. simpl. apply drop_all.
  - erewrite program_events; [|rewrite Hmain; reflexivity].
    simpl. now rewrite <- !app_assoc.
Qed.

(** X17.  When every placement is refused the whole program ends with the
    [AttributeError] of line 173: the [finally] block runs with an empty
    batch, the last line [done.] is printed, and the error is not caught by
    the [except KeyboardInterrupt] of the last lines. *)
Theorem exhaustion_ends_the_program_with_an_error args n (ms : main_state R W Other)
    ego_vehicle :
  let s2 := prepared args (base ms) in
  let run := program args n ms in
  safe args = false ->
  find_ego_vehicle (world s2) = Some ego_vehicle ->
  fst (spawn_vehicle_in_front_of_ego_vehicle (get_blueprint_library (world s2))
         ego_vehicle default_distance default_retries s2) = Ok None ->
  fst run = Raised (Exn AttributeError) /\
  vehicles_list (snd run) = [] /\
  new_events ms (snd run) =
    opening_events args (base ms) ++ [Printed MsgFailed] ++
    cleanup_events [] ++ [PrintedDone].
Proof.
  intros s2 run Hsafe Hego Hnone. subst run.
  pose proof (main_outcomes args n ms) as Hmain. cbv zeta in Hmain.
  fold s2 in Hmain. rewrite Hsafe in Hmain. cbv iota in Hmain.
  pose proof (located_lines s2) as Hlines. rewrite Hego in Hlines.
  cbv zeta in Hlines. rewrite Hnone in Hlines.
  pose proof (main_locate_and_spawn_run s2) as Hrun. rewrite Hego in Hrun.
  cbv zeta in Hrun. rewrite Hnone in Hrun.
  rewrite Hlines in Hmain. rewrite Hrun in Hmain. cbn [fst snd] in Hmain.
  split; [|split].
  - rewrite program_run. cbv zeta. now rewrite Hmain.
  - rewrite program_run. cbv zeta. now rewrite Hmain.
  - erewrite program_events; [|rewrite Hmain; reflexivity].
    simpl. now rewrite <- !app_assoc.
Qed.

(** X18.  When a placement is accepted, the program idles until it is
    interrupted and then ends normally: it has printed the two lines for the
    vehicle, made one call per round, [tick] when it is the synchronous
    master and [wait_for_tick] otherwise, destroyed exactly the vehicle it
    spawned, and printed [done.]. *)
Theorem spawned_vehicle_is_destroyed_on_interrupt args n (ms : main_state R W Other)
    ego_vehicle vehicle :
  let s2 := prepared args (base ms) in
  let spawn :=
    spawn_vehicle_in_front_of_ego_vehicle (get_blueprint_library (world s2))
      ego_vehicle default_distance default_retries s2 in
  let master := becomes_master args (get_settings (world (base ms))) in
  let run := program args n ms in
  safe args = false ->
  find_ego_vehicle (world s2) = Some ego_vehicle ->
  fst spawn = Ok (Some vehicle) ->
  fst run = Returned tt /\
  new_events ms (snd run) =
    opening_events args (base ms) ++
    [Printed (MsgSpawned (actor_id vehicle)
                (Z.of_nat (length (new_requests s2 (snd spawn)))));
     Printed (MsgSpawnedInFront (actor_id vehicle))] ++
    repeat (idle_event args master) n ++
    cleanup_events [actor_id vehicle] ++ [PrintedDone] /\
  world (base (snd run)) =
    destroy_actors [actor_id vehicle]
      (Nat.iter n (idle_round args master) (world (snd spawn))).
Proof.
  intros s2 spawn master run Hsafe Hego Hsome. subst run.
  pose proof (main_outcomes args n ms) as Hmain. cbv zeta in Hmain.
  fold s2 master in Hmain. rewrite Hsafe in Hmain. cbv iota in Hmain.
  pose proof (located_lines s2) as Hlines. rewrite Hego in Hlines.
  cbv zeta in Hlines. fold spawn in Hlines. rewrite Hsome in Hlines.
  pose proof (main_locate_and_spawn_run s2) as Hrun. rewrite Hego in Hrun.
  cbv zeta in Hrun. fold spawn in Hrun. rewrite Hsome in Hrun.
  rewrite Hlines in Hmain. rewrite Hrun in Hmain. cbn [fst snd] in Hmain.
  split; [|split].
  - rewrite program_run. cbv zeta. now rewrite Hmain.
  - erewrite program_events; [|rewrite Hmain; reflexivity].
    cbn [List.map]. rewrite <- !app_assoc. reflexivity.
  - rewrite program_run. cbv zeta. rewrite Hmain. reflexivity.
Qed.

(** X19.  With [--safe], a listed blueprint without an integer
    [number_of_wheels] attribute ends the program with [IndexError] or
    [TypeError] before it looks for the ego vehicle: there is no placement
    request, and the [finally] block runs with an empty batch. *)
Theorem safe_can_end_the_program_early args n (ms : main_state R W Other) :
  let run := program args n ms in
  safe args = true ->
  forallb has_wheel_count (listed_blueprints args (base ms)) = false ->
  exists e,
    (e = IndexError \/ e = TypeError) /\
    fst run = Raised (Exn e) /\
    new_requests (base ms) (base (snd run)) = [] /\
    new_events ms (snd run) =
      opening_events args (base ms) ++ cleanup_events [] ++ [PrintedDone].
Proof.
  intros run Hsafe Hwheels. subst run.
  pose proof (main_outcomes args n ms) as Hmain. cbv zeta in Hmain.
  rewrite Hsafe in Hmain.
  destruct (safe_raises_early (listed_blueprints args (base ms))
              (prepared args (base ms)) Hwheels) as (e & Hrun & He).
  rewrite Hrun in Hmain. cbn [fst] in Hmain.
  exists e. split; [exact He|].
  split; [|split].
  - rewrite program_run. cbv zeta. rewrite Hmain. reflexivity.
  - rewrite program_run. cbv zeta. rewrite Hmain. cbn [snd base].
    rewrite new_requests_with_world. unfold new_requests, prepared.
    cbn [requests]. apply drop_all.
  - erewrite program_events; [|rewrite Hmain; reflexivity].
    now rewrite <- !app_assoc.
Qed.

(** *** The options that do nothing *)

Lemma spawn_insensitive lib ego_vehicle distance retries (s s' : state R W) :
  world s' = world s ->
  rng s' = rng s ->
  let run := spawn_vehicle_in_front_of_ego_vehicle lib ego_vehicle distance retries s in
  let run' := spawn_vehicle_in_front_of_ego_vehicle lib ego_vehicle distance retries s' in
  fst run' = fst run /\
  new_requests s' (snd run') = new_requests s (snd run) /\
  world (snd run') = world (snd run).
Proof.
  intros Hw Hg run run'.
  destruct (spawn_cases lib ego_vehicle distance retries s)
    as (reqs & Hreq & Hworld & _ & Hcases).
  destruct (spawn_cases lib ego_vehicle distance retries s')
    as (reqs' & Hreq' & Hworld' & _ & Hcases').
  fold run in Hreq, Hworld, Hcases. fold run' in Hreq', Hworld', Hcases'.
  rewrite (new_requests_app _ _ _ Hreq), (new_requests_app _ _ _ Hreq').
  destruct (generator_only_configure_blueprint lib s) as [_ Hframe].
  destruct (Hframe s' Hg) as [Hconf _].
  rewrite Hw in *.
  assert (Heq : reqs' = reqs /\ fst run' = fst run).
  { destruct Hcases as [(bp & Hbp & Hreqs & Hres)|(e & He & Hreqs & Hres)];
      destruct Hcases' as [(bp' & Hbp' & Hreqs' & Hres')|(e' & He' & Hreqs' & Hres')];
      rewrite Hconf in *.
    - assert (bp' = bp) by congruence. subst bp'. split; congruence.
    - congruence.
    - congruence.
    - split; congruence. }
  destruct Heq as [Hreqs Hfst]. subst reqs'. repeat split; congruence.
Qed.

Lemma located_insensitive (s s' : state R W) :
  world s' = world s ->
  rng s' = rng s ->
  requests s' = requests s ->
  fst (main_locate_and_spawn s') = fst (main_locate_and_spawn s) /\
  world (snd (main_locate_and_spawn s')) = world (snd (main_locate_and_spawn s)) /\
  requests (snd (main_locate_and_spawn s')) = requests (snd (main_locate_and_spawn s)) /\
  drop (length (stdout s')) (stdout (snd (main_locate_and_spawn s'))) =
    drop (length (stdout s)) (stdout (snd (main_locate_and_spawn s))).
Proof.
  intros Hw Hg Hr.
  rewrite (located_lines s), (located_lines s').
  rewrite (main_locate_and_spawn_run s), (main_locate_and_spawn_run s').
  rewrite Hw. destruct (find_ego_vehicle (world s)) as [ego_vehicle|];
    [|simpl; auto].
  cbv zeta.
  destruct (spawn_insensitive (get_blueprint_library (world s)) ego_vehicle
              default_distance default_retries s s' Hw Hg) as (Hfst & Hnew & Hworld).
  cbv zeta in Hfst, Hnew, Hworld.
  assert (Hreqs : requests (snd (spawn_vehicle_in_front_of_ego_vehicle
                                   (get_blueprint_library (world s)) ego_vehicle
                                   default_distance default_retries s')) =
                  requests (snd (spawn_vehicle_in_front_of_ego_vehicle
                                   (get_blueprint_library (world s)) ego_vehicle
                                   default_distance default_retries s))).
  { destruct (spawn_cases (get_blueprint_library (world s)) ego_vehicle
                default_distance default_retries s) as (reqs & Hreq & _).
    destruct (spawn_cases (get_blueprint_library (world s)) ego_vehicle
                default_distance default_retries s') as (reqs' & Hreq' & _).
    cbv zeta in Hreq, Hreq'.
    rewrite (new_requests_app _ _ _ Hreq), (new_requests_app _ _ _ Hreq') in Hnew.
    rewrite Hreq, Hreq', Hr, Hnew. reflexivity. }
  rewrite Hfst, Hnew.
  destruct (fst (spawn_vehicle_in_front_of_ego_vehicle _ _ _ _ s)) as [[v|]|e];
    simpl; auto.
Qed.

Lemma no_warning_in_warning bps generation :
  List.filter (fun e => negb (is_warning e))
    (List.map (Printed (R:=R) (Other:=Other)) (generation_warning bps generation)) = [].
Proof.
  unfold generation_warning. destruct (_ || _); [reflexivity|].
  destruct (py_int generation); [destruct (_ && _)|]; reflexivity.
Qed.

Lemma opening_without_warning args (s : state R W) :
  List.filter (fun e => negb (is_warning e)) (opening_events args s) =
    (if asynch args then [PrintedAsynchronousNotice] else []) ++
    [AppliedSettings (applied_settings args (get_settings (world s)))].
Proof.
  unfold opening_events. rewrite app_assoc, List.filter_app, no_warning_in_warning.
  rewrite app_nil_r. destruct (asynch args); reflexivity.
Qed.

Lemma applied_settings_asynch args args' (settings : WorldSettings R Other) :
  asynch args' = asynch args ->
  applied_settings args' settings = applied_settings args settings /\
  becomes_master args' settings = becomes_master args settings.
Proof.
  intros E. unfold applied_settings, becomes_master. now rewrite E.
Qed.

(** X20.  Without [--safe], the options [--filterv] and [--generationv] do
    nothing but decide whether the warning is printed: the blueprints they
    list are never used.  Two runs that differ in these options only end
    the same way, make the same placement requests, leave the same world
    and the same vehicles list, and show the same events apart from the
    warning. *)
Theorem filter_and_generation_do_not_matter args args' n (ms : main_state R W Other) :
  let run := main args n ms in
  let run' := main args' n ms in
  asynch args' = asynch args ->
  safe args = false ->
  safe args' = false ->
  fst run' = fst run /\
  vehicles_list (snd run') = vehicles_list (snd run) /\
  requests (base (snd run')) = requests (base (snd run)) /\
  world (base (snd run')) = world (base (snd run)) /\
  List.filter (fun e => negb (is_warning e)) (new_events ms (snd run')) =
    List.filter (fun e => negb (is_warning e)) (new_events ms (snd run)).
Proof.
  intros run run' Hasynch Hsafe Hsafe'. subst run run'.
  rewrite (main_outcomes args n ms), (main_outcomes args' n ms). cbv zeta.
  rewrite Hsafe, Hsafe'. cbv iota.
  destruct (applied_settings_asynch args args' (get_settings (world (base ms))) Hasynch)
    as [Happlied Hmaster].
  rewrite Hmaster.
  set (master := becomes_master args (get_settings (world (base ms)))).
  assert (Hround : idle_round args' master = idle_round args master)
    by (unfold idle_round; now rewrite Hasynch).
  assert (Hevent : idle_event (R:=R) (Other:=Other) args' master = idle_event args master)
    by (unfold idle_event; now rewrite Hasynch).
  rewrite Hround, Hevent.
  destruct (located_insensitive (prepared args (base ms)) (prepared args' (base ms)))
    as (Hfst & Hworld & Hreqs & Hlines).
  { unfold prepared. cbn [world]. now rewrite Happlied. }
  { reflexivity. }
  { reflexivity. }
  rewrite Hfst, Hlines.
  assert (Hopen : List.filter (fun e => negb (is_warning e))
                    (opening_events (Other:=Other) args' (base ms)) =
                  List.filter (fun e => negb (is_warning e))
                    (opening_events args (base ms))).
  { rewrite !opening_without_warning, Hasynch, Happlied. reflexivity. }
  set (opening := opening_events args (base ms)) in *.
  set (opening' := opening_events args' (base ms)) in *.
  set (lines := List.map Printed _).
  set (rounds := repeat _ n).
  set (s3 := snd (main_locate_and_spawn (prepared args (base ms)))) in *.
  set (s3' := snd (main_locate_and_spawn (prepared args' (base ms)))) in *.
  clearbody opening opening' lines rounds s3 s3'.
  destruct (fst (main_locate_and_spawn (prepared args (base ms)))) as [[l|]|e];
    cbn [fst snd vehicles_list base console];
    (split; [reflexivity|]); (split; [reflexivity|]);
    (split; [unfold with_world; cbn [requests]; exact Hreqs|]);
    (split; [unfold with_world; cbn [world]; now rewrite Hworld|]);
    unfold new_events; cbn [console]; rewrite !drop_app_length;
    rewrite !List.filter_app, Hopen; reflexivity.
Qed.

End MainProperties.

(** ** The script on the test double *)

Local Open Scope list_scope.

Lemma sim_refusal_changes_nothing bp tf w :
  fst (sim_try_spawn_actor bp tf w) = None -> snd (sim_try_spawn_actor bp tf w) = w.
Proof.
  unfold sim_try_spawn_actor. destruct (Qle_bool _ _); simpl; [discriminate|reflexivity].
Qed.

Lemma sim_acceptance_creates_one bp tf w a :
  fst (sim_try_spawn_actor bp tf w) = Some a ->
  sim_actors (snd (sim_try_spawn_actor bp tf w)) ≡ₚ a :: sim_actors w.
Proof.
  unfold sim_try_spawn_actor. destruct (Qle_bool _ _); simpl; [|discriminate].
  intros E. inversion E. symmetry. apply Permutation_cons_append.
Qed.

#[export] Instance sim_contract : PlacementContract (R:=Qc) (W:=sim).
Proof.
  split.
  - exact sim_refusal_changes_nothing.
  - exact sim_acceptance_creates_one.
Qed.

(** The heights of the candidates of a call that succeeds on its third
    attempt: 0, 0.5 and 1. *)
Example candidate_heights :
  List.map (fun rq => this (z (location (req_transform rq))))
    (requests (snd (spawn_vehicle_in_front_of_ego_vehicle [audi; tesla; street_sign]
                      ego (Qc_of_Z 75) 5 (initial (sim_with_clearance 2))))) =
  [0%Q; (1 # 2)%Q; 1%Q].
Proof. vm_compute. reflexivity. Qed.

Example candidate_positions :
  List.map (fun rq => (this (x (location (req_transform rq))),
                       this (y (location (req_transform rq)))))
    (requests (snd (spawn_vehicle_in_front_of_ego_vehicle [audi; tesla; street_sign]
                      ego (Qc_of_Z 75) 5 (initial (sim_with_clearance 2))))) =
  [(10%Q, 95%Q); (10%Q, 95%Q); (10%Q, 95%Q)].
Proof. vm_compute. reflexivity. Qed.

Lemma accepted_on_attempt_k_witness :
  let s := initial (sim_with_clearance 2) in
  let run :=
    spawn_vehicle_in_front_of_ego_vehicle [audi; tesla; street_sign] ego (Qc_of_Z 75) 5 s in
  fst (configure_blueprint [audi; tesla; street_sign] s) = Ok configured_tesla /\
  response_at configured_tesla ego_pose (Qc_of_Z 75) (world s) 2 = Some spawned_tesla /\
  fst run = Ok (Some spawned_tesla) /\
  length (new_requests s (snd run)) = 3%nat.
Proof.
  intros s run.
  assert (Hbp : fst (configure_blueprint [audi; tesla; street_sign] s) = Ok configured_tesla)
    by (vm_compute; reflexivity).
  assert (Hacc : response_at configured_tesla ego_pose (Qc_of_Z 75) (world s) 2
                 = Some spawned_tesla) by (vm_compute; reflexivity).
  destruct (accepted_on_attempt_k [audi; tesla; street_sign] ego (Qc_of_Z 75) 5 s
              configured_tesla 2 spawned_tesla Hbp) as (Hres & Hlen & _).
  - lia.
  - intros j Hj. assert (Hc : j = 0 \/ j = 1) by lia.
    destruct Hc as [-> | ->]; vm_compute; reflexivity.
  - exact Hacc.
  - repeat split; assumption.
Defined.

Lemma all_attempts_refused_witness :
  let s := initial (sim_with_clearance 10) in
  let run :=
    spawn_vehicle_in_front_of_ego_vehicle [audi; tesla; street_sign] ego (Qc_of_Z 75) 5 s in
  fst (configure_blueprint [audi; tesla; street_sign] s) = Ok configured_tesla /\
  fst run = Ok None /\
  length (new_requests s (snd run)) = 5%nat.
Proof.
  intros s run.
  assert (Hbp : fst (configure_blueprint [audi; tesla; street_sign] s) = Ok configured_tesla)
    by (vm_compute; reflexivity).
  destruct (all_attempts_refused [audi; tesla; street_sign] ego (Qc_of_Z 75) 5 s
              configured_tesla Hbp) as (Hres & Hlen & _).
  - intros j Hj. assert (Hc : j = 0 \/ j = 1 \/ j = 2 \/ j = 3 \/ j = 4) by lia.
    destruct Hc as [-> | [-> | [-> | [-> | ->]]]]; vm_compute; reflexivity.
  - repeat split; assumption.
Defined.

Lemma at_most_one_placement_succeeds_witness :
  let s := initial (sim_with_clearance 2) in
  let run :=
    spawn_vehicle_in_front_of_ego_vehicle [audi; tesla; street_sign] ego (Qc_of_Z 75) 5 s in
  (length (List.filter is_accepted (new_requests s (snd run))) <= 1)%nat /\
  (length (get_actors (world (snd run))) <= length (get_actors (world s)) + 1)%nat.
Proof.
  intros s run.
  destruct (at_most_one_placement_succeeds
              [audi; tesla; street_sign] ego (Qc_of_Z 75) 5 s)
    as (Hone & _ & _ & _ & Hactors).
  split; [exact Hone|exact (Hactors sim_contract)].
Defined.

Lemma failure_leaves_world_unchanged_witness :
  let s := initial (sim_with_clearance 10) in
  let run :=
    spawn_vehicle_in_front_of_ego_vehicle [audi; tesla; street_sign] ego (Qc_of_Z 75) 5 s in
  fst run = Ok None /\ world (snd run) = world s.
Proof.
  intros s run.
  assert (Hres : fst run = Ok None) by (vm_compute; reflexivity).
  pose proof (failure_leaves_world_unchanged (contract := sim_contract)
                [audi; tesla; street_sign] ego (Qc_of_Z 75) 5 s) as Hworld.
  cbv zeta in Hworld. fold s run in Hworld. rewrite Hres in Hworld.
  destruct Hworld as [Hworld _]. split; assumption.
Defined.

Lemma single_attempt_has_zero_offset_witness :
  let s := field_initial in
  let run :=
    spawn_vehicle_in_front_of_ego_vehicle [audi; tesla; street_sign] ego
      (float_of_int 75) 1 s in
  fst (configure_blueprint [audi; tesla; street_sign] s) = Ok configured_tesla /\
  exists rq,
    new_requests s (snd run) = [rq] /\
    location (req_transform rq) =
      mkLocation (float_of_int 10)
        (PrimFloat.mul (float_of_int 191) float_half)
        (PrimFloat.mul (float_of_int 3) float_half).
Proof.
  intros s run.
  assert (Hbp : fst (configure_blueprint [audi; tesla; street_sign] s) = Ok configured_tesla)
    by (vm_compute; reflexivity).
  destruct (single_attempt_has_zero_offset [audi; tesla; street_sign] ego
              (float_of_int 75) s configured_tesla Hbp) as (rq & Hone & _ & Hbase).
  split; [exact Hbp|]. exists rq. split; [exact Hone|].
  rewrite Hbase; vm_compute; reflexivity.
Defined.

Lemma nonpositive_retries_return_none_witness :
  let s := initial (sim_with_clearance 0) in
  let run :=
    spawn_vehicle_in_front_of_ego_vehicle [audi; tesla; street_sign] ego (Qc_of_Z 75) 0 s in
  fst (configure_blueprint [audi; tesla; street_sign] s) = Ok configured_tesla /\
  fst run = Ok None /\
  new_requests s (snd run) = [].
Proof.
  intros s run.
  assert (Hbp : fst (configure_blueprint [audi; tesla; street_sign] s) = Ok configured_tesla)
    by (vm_compute; reflexivity).
  destruct (nonpositive_retries_return_none [audi; tesla; street_sign] ego (Qc_of_Z 75) 0 s
              configured_tesla Hbp) as (Hres & Hreqs & _).
  - lia.
  - repeat split; assumption.
Defined.

Lemma main_raises_on_exhaustion_witness :
  let s := initial (sim_with_clearance 10) in
  fst (spawn_vehicle_in_front_of_ego_vehicle (get_blueprint_library (world s))
         ego default_distance default_retries s) = Ok None /\
  fst (main_locate_and_spawn s) = Raise AttributeError.
Proof.
  intros s.
  assert (Hnone : fst (spawn_vehicle_in_front_of_ego_vehicle (get_blueprint_library (world s))
                         ego default_distance default_retries s) = Ok None)
    by (vm_compute; reflexivity).
  destruct (main_raises_on_exhaustion s ego) as [Hraise _].
  - vm_compute. reflexivity.
  - exact Hnone.
  - split; assumption.
Defined.

(** [int] reads the decimal digits of every script: the generation 1 may be
    written with the full-width digit, and with blanks around it. *)
Example generation_in_full_width_digits :
  py_int "１" = Some 1 /\
  py_int " ２ " = Some 2 /\
  fst (get_actor_blueprints "vehicle.*" "１" (initial (sim_with_clearance 0))) =
    Ok [tesla].
Proof. repeat split; vm_compute; reflexivity. Qed.

(** With the filter [*] the street sign matches too; it has no [generation]
    attribute, the bare [except] of line 40 catches the error of line 35,
    and the generation 1 gets the warning and the empty list. *)
Example missing_generation_attribute :
  get_actor_blueprints "*" "1" (initial (sim_with_clearance 0)) =
    (Ok [], mkState (sim_with_clearance 0) [] [5%nat] [] [MsgGenerationNotValid]).
Proof. vm_compute. reflexivity. Qed.


(** ** The rest of the script on the test double *)

Lemma configured_blueprint_keeps_the_rest_witness :
  let s := initial (sim_with_clearance 2) in
  let run :=
    spawn_vehicle_in_front_of_ego_vehicle [audi; tesla; street_sign] ego (Qc_of_Z 75) 5 s in
  length (new_requests s (snd run)) = 3%nat /\
  Forall
    (fun rq =>
       List.map attr_id (bp_attributes (req_blueprint rq)) =
         List.map attr_id (bp_attributes tesla))
    (new_requests s (snd run)).
Proof.
  intros s run. split; [vm_compute; reflexivity|].
  assert (Hfind : List.find (fun b => String.eqb (bp_id b) "vehicle.tesla.model3")
                    [audi; tesla; street_sign] = Some tesla) by reflexivity.
  pose proof (configured_blueprint_keeps_the_rest [audi; tesla; street_sign] ego
                (Qc_of_Z 75) 5 s tesla Hfind) as Hall.
  eapply Forall_impl; [exact Hall|]. intros rq (Hids & _). exact Hids.
Defined.

Lemma missing_blueprint_raises_witness :
  let s := initial (sim_with_clearance 0) in
  let run := spawn_vehicle_in_front_of_ego_vehicle [audi; street_sign] ego (Qc_of_Z 75) 5 s in
  fst run = Raise IndexError /\ new_requests s (snd run) = [].
Proof.
  intros s run.
  destruct (missing_blueprint_raises [audi; street_sign] ego (Qc_of_Z 75) 5 s)
    as (Hres & Hreqs & _).
  - reflexivity.
  - split; assumption.
Defined.

Lemma no_recommended_colour_raises_witness :
  let s := initial (sim_with_clearance 0) in
  let run := spawn_vehicle_in_front_of_ego_vehicle [plain_tesla] ego (Qc_of_Z 75) 5 s in
  fst run = Raise ValueError /\ new_requests s (snd run) = [].
Proof.
  intros s run.
  destruct (no_recommended_colour_raises [plain_tesla] ego (Qc_of_Z 75) 5 s plain_tesla
              (mkAttribute "color" AttrRGBColor "0,0,0" [] true))
    as (Hres & Hreqs & _).
  - reflexivity.
  - reflexivity.
  - reflexivity.
  - split; assumption.
Defined.

Lemma larger_budget_same_success_witness :
  let s := initial (sim_with_clearance 2) in
  let run := spawn_vehicle_in_front_of_ego_vehicle [audi; tesla; street_sign] ego (Qc_of_Z 75) 3 s in
  let run' := spawn_vehicle_in_front_of_ego_vehicle [audi; tesla; street_sign] ego (Qc_of_Z 75) 5 s in
  fst run = Ok (Some spawned_tesla) /\
  fst run' = Ok (Some spawned_tesla) /\
  new_requests s (snd run') = new_requests s (snd run).
Proof.
  intros s run run'.
  assert (Hres : fst run = Ok (Some spawned_tesla)) by (vm_compute; reflexivity).
  destruct (larger_budget_same_success [audi; tesla; street_sign] ego (Qc_of_Z 75) 3 5 s
              spawned_tesla) as (Hres' & Hreqs & _).
  - lia.
  - exact Hres.
  - split; [exact Hres|]. split; [exact Hres'|exact Hreqs].
Defined.

Lemma returns_first_acceptable_candidate_witness :
  let s := initial (sim_with_clearance 2) in
  let run := spawn_vehicle_in_front_of_ego_vehicle [audi; tesla; street_sign] ego (Qc_of_Z 75) 5 s in
  first_acceptable configured_tesla ego_pose (Qc_of_Z 75) (world s) 5 = Some spawned_tesla /\
  fst run = Ok (first_acceptable configured_tesla ego_pose (Qc_of_Z 75) (world s) 5).
Proof.
  intros s run. split; [vm_compute; reflexivity|].
  apply (returns_first_acceptable_candidate (contract := sim_contract)
           [audi; tesla; street_sign] ego (Qc_of_Z 75) 5 s configured_tesla).
  vm_compute. reflexivity.
Defined.

Lemma returned_blueprints_have_the_generation_witness :
  let s := initial (sim_with_clearance 0) in
  py_int "1" = Some 1 /\
  exists result,
    fst (get_actor_blueprints "vehicle.*" "1" s) = Ok result /\
    Forall (fun bp => has_generation 1 bp = true) result.
Proof.
  intros s. split; [reflexivity|].
  apply (returned_blueprints_have_the_generation "vehicle.*" "1" 1 s).
  - reflexivity.
  - left. reflexivity.
  - vm_compute. discriminate.
Defined.

Lemma safe_keeps_four_wheeled_models_witness :
  let s := initial (sim_with_clearance 0) in
  List.filter is_safe [tesla; cybertruck] = [tesla] /\
  safe_blueprints [tesla; cybertruck] s = (Ok (List.filter is_safe [tesla; cybertruck]), s).
Proof.
  intros s. split; [vm_compute; reflexivity|].
  apply (safe_keeps_four_wheeled_models [tesla; cybertruck] s). reflexivity.
Defined.

Lemma safe_raises_without_wheel_count_witness :
  let s := initial (sim_with_clearance 0) in
  exists e,
    safe_blueprints [tesla; audi] s = (Raise e, s) /\ (e = IndexError \/ e = TypeError).
Proof.
  intros s. apply (safe_raises_without_wheel_count [tesla; audi] s). reflexivity.
Defined.

Lemma safe_is_idempotent_witness :
  let s := initial (sim_with_clearance 0) in
  safe_blueprints [tesla; cybertruck] s = (Ok [tesla], s) /\
  safe_blueprints [tesla] s = (Ok [tesla], s).
Proof.
  intros s.
  assert (Hrun : safe_blueprints [tesla; cybertruck] s = (Ok [tesla], s))
    by (vm_compute; reflexivity).
  split; [exact Hrun|].
  exact (safe_is_idempotent [tesla; cybertruck] [tesla] s s Hrun).
Defined.

Lemma no_ego_vehicle_nothing_spawned_witness :
  let ms := main_initial empty_studio in
  let run := program default_args 3 ms in
  fst run = Returned tt /\ new_requests (base ms) (base (snd run)) = [].
Proof.
  intros ms run.
  destruct (no_ego_vehicle_nothing_spawned default_args 3 ms) as (Hres & Hreqs & _).
  - reflexivity.
  - vm_compute. reflexivity.
  - split; assumption.
Defined.

Lemma exhaustion_ends_the_program_with_an_error_witness :
  let ms := main_initial (studio_with_clearance 10) in
  let run := program default_args 3 ms in
  fst run = Raised (Exn AttributeError) /\ vehicles_list (snd run) = [].
Proof.
  intros ms run.
  destruct (exhaustion_ends_the_program_with_an_error default_args 3 ms ego)
    as (Hres & Hlist & _).
  - reflexivity.
  - vm_compute. reflexivity.
  - vm_compute. reflexivity.
  - split; assumption.
Defined.

Lemma spawned_vehicle_is_destroyed_on_interrupt_witness :
  let ms := main_initial (studio_with_clearance 2) in
  let run := program default_args 3 ms in
  fst run = Returned tt /\
  List.filter is_destroyed (new_events ms (snd run)) = [Destroyed [8]] /\
  List.filter is_tick (new_events ms (snd run)) = [Ticked; Ticked; Ticked].
Proof.
  intros ms run.
  destruct (spawned_vehicle_is_destroyed_on_interrupt default_args 3 ms ego spawned_tesla)
    as (Hres & Hevents & _).
  - reflexivity.
  - vm_compute. reflexivity.
  - vm_compute. reflexivity.
  - split; [exact Hres|]. fold run in Hevents. rewrite Hevents.
    split; vm_compute; reflexivity.
Defined.

Lemma safe_can_end_the_program_early_witness :
  let ms := main_initial (studio_with_clearance 0) in
  let run := program safe_args 3 ms in
  exists e,
    (e = IndexError \/ e = TypeError) /\
    fst run = Raised (Exn e) /\
    new_requests (base ms) (base (snd run)) = [].
Proof.
  intros ms run.
  destruct (safe_can_end_the_program_early safe_args 3 ms) as (e & He & Hres & Hreqs & _).
  - reflexivity.
  - vm_compute. reflexivity.
  - exists e. split; [exact He|]. split; [exact Hres|exact Hreqs].
Defined.

Lemma filter_and_generation_do_not_matter_witness :
  let ms := main_initial (studio_with_clearance 2) in
  fst (main walker_args 3 ms) = fst (main default_args 3 ms) /\
  requests (base (snd (main walker_args 3 ms))) =
    requests (base (snd (main default_args 3 ms))).
Proof.
  intros ms.
  destruct (filter_and_generation_do_not_matter default_args walker_args 3 ms)
    as (Hres & _ & Hreqs & _).
  - reflexivity.
  - reflexivity.
  - reflexivity.
  - split; assumption.
Defined.
